(** * Cinema domain model: screenings, halls, the reservation ledger, snapshots

    A shallow embedding of [src/src/film.py], [src/src/exceptions.py] and
    [src/zaliczeniowy/src/cinema.py], and the properties of the scheduling,
    reservation and persistence code.

    Conventions of the embedding.
    - A [datetime] is the integer number of microseconds since an arbitrary
      epoch (the resolution of Python's [datetime]); [timedelta(minutes=d)]
      is [d * 60_000_000].  The finite range of [datetime] (years 1..9999) is
      not modelled: all instants are taken far from [datetime.max].
    - "Current time" ([datetime.now()]) is an explicit argument [now].
    - A method that mutates [self] and may raise is a computation in the
      state-and-exception monad [M S]: it maps the object before the call to
      the outcome ([Ok v] or [Raise e]) and the object after the call.
    - A [dict] is a finite map ([gmap]); a Python [list] is a [list].
    - A file is kept as the JSON value that its text denotes: [json.dumps]
      followed by [json.loads] gives back a value made of objects, arrays,
      strings and integers.  The two limits of the interpreter that [json]
      meets are at their defaults: integers of at most 4300 decimal digits,
      and a recursion limit of 1000. *)

From Stdlib Require Import ZArith Lia Floats.
From stdpp Require Import base option list gmap strings sorting.

#[local] Open Scope Z_scope.

(** ** Exceptions ([src/src/exceptions.py] and the builtins that [load] sees) *)

Module Exceptions.

(** The pieces of an f-string: literal text and formatted integers. *)
Inductive part :=
| Lit (s : string)
| Int (z : Z).

Definition message := list part.

Inductive exn :=
| ValidationError (m : message)
| ReservationError (m : message)
| ScheduleConflictError (m : message)
| PaymentError (m : message)
| ValueError (m : message)
| KeyError (key : part)
| TypeError
| OSError
| JSONDecodeError
| AttributeError
| RecursionError
| IOError (m : message).

Inductive result (A : Type) :=
| Ok (v : A)
| Raise (e : exn).
Arguments Ok {A} v.
Arguments Raise {A} e.

#[export] Instance result_ret : MRet result := λ A, Ok.
#[export] Instance result_bind : MBind result :=
  λ A B k r, match r with Ok v => k v | Raise e => Raise e end.
#[export] Instance result_fmap : FMap result :=
  λ A B f r, match r with Ok v => Ok (f v) | Raise e => Raise e end.

Definition is_ValidationError {A} (r : result A) : bool :=
  match r with Raise (ValidationError _) => true | _ => false end.
Definition is_ReservationError {A} (r : result A) : bool :=
  match r with Raise (ReservationError _) => true | _ => false end.
Definition is_ScheduleConflictError {A} (r : result A) : bool :=
  match r with Raise (ScheduleConflictError _) => true | _ => false end.
Definition is_ValueError {A} (r : result A) : bool :=
  match r with Raise (ValueError _) => true | _ => false end.
Definition is_IOError {A} (r : result A) : bool :=
  match r with Raise (IOError _) => true | _ => false end.
Definition is_Ok {A} (r : result A) : bool :=
  match r with Ok _ => true | _ => false end.

End Exceptions.
Export Exceptions.

(** ** Methods as state-and-exception computations *)

Module Method.

Definition M (S A : Type) : Type := S → result A * S.

Definition ret {S A} (v : A) : M S A := λ s, (Ok v, s).
Definition raise {S A} (e : exn) : M S A := λ s, (Raise e, s).
Definition bind {S A B} (c : M S A) (k : A → M S B) : M S B :=
  λ s, match c s with
       | (Ok v, s') => k v s'
       | (Raise e, s') => (Raise e, s')
       end.
Definition get {S} : M S S := λ s, (Ok s, s).
Definition modify {S} (f : S → S) : M S unit := λ s, (Ok tt, f s).

(** [for x in l: body x] *)
Fixpoint for_each {S A} (l : list A) (body : A → M S unit) : M S unit :=
  match l with
  | [] => ret tt
  | x :: l' => bind (body x) (λ _, for_each l' body)
  end.

(** [if c: raise e] *)
Definition raise_if {S} (c : bool) (e : exn) : M S unit :=
  if c then raise e else ret tt.

#[export] Instance M_ret {S} : MRet (M S) := λ A, ret.
#[export] Instance M_bind {S} : MBind (M S) := λ A B k c, bind c k.

Definition outcome {S A} (r : result A * S) : result A := r.1.
Definition after {S A} (r : result A * S) : S := r.2.

End Method.
Export Method.

(** ** [src/src/film.py] *)

Module FilmModel.

Definition datetime := Z.

(** [timedelta(minutes=d)], in microseconds. *)
Definition timedelta_minutes (d : Z) : Z := d * 60000000.

Record ScreeningTime := mkScreeningTime { start : datetime; hall : Z }.

(** [ScreeningTime.__eq__] compares [start] and [hall]; [__hash__] hashes the
    same pair: equality of screenings is equality of records. *)
#[export] Instance ScreeningTime_eq_dec : EqDecision ScreeningTime.
Proof. solve_decision. Defined.

#[export] Instance ScreeningTime_countable : Countable ScreeningTime.
Proof.
  refine (inj_countable' (λ s, (start s, hall s))
                         (λ p, mkScreeningTime p.1 p.2) _).
  by intros [].
Defined.

(** [ScreeningTime.__init__] *)
Definition ScreeningTime_init (now : datetime) (start0 : datetime) (hall0 : Z)
  : result ScreeningTime :=
  if start0 <=? now then
    Raise (ValidationError [Lit "Screening time must be in the future"])
  else if hall0 <=? 0 then
    Raise (ValidationError [Lit "Hall number must be positive"])
  else Ok (mkScreeningTime start0 hall0).

(** [CinemaPromotion] of [src/src/promotions.py]: [Film] reads [expires_at]
    only; [conditions] and [_applied_screenings] are never touched by it. *)
Record CinemaPromotion := mkPromotion {
  promo_name : string;
  discount_percent : Z;
  expires_at : datetime
}.

(** [CinemaPromotion.is_valid] *)
Definition CinemaPromotion_is_valid (now : datetime) (p : CinemaPromotion) : bool :=
  now <=? expires_at p.

Definition MAX_DURATION : Z := 960.
Definition MIN_DURATION : Z := 1.

Record Film := mkFilm {
  title : string;
  duration : Z;
  rating : string;
  screenings : list ScreeningTime;
  _promotions : gmap ScreeningTime CinemaPromotion
}.

Definition set_screenings (l : list ScreeningTime) (f : Film) : Film :=
  mkFilm (title f) (duration f) (rating f) l (_promotions f).
Definition set_promotions (p : gmap ScreeningTime CinemaPromotion) (f : Film) : Film :=
  mkFilm (title f) (duration f) (rating f) (screenings f) p.

(** [Film.__post_init__] *)
Definition Film_post_init (f : Film) : result unit :=
  if bool_decide (title f = EmptyString) then
    Raise (ValidationError [Lit "Title cannot be empty"])
  else if duration f <=? 0 then
    Raise (ValidationError [Lit "Duration must be a positive integer"])
  else if bool_decide (rating f = EmptyString) then
    Raise (ValidationError [Lit "Rating cannot be empty"])
  else if negb (bool_decide (rating f ∈ ["G"; "PG"; "PG-13"; "R"; "NC-17"])) then
    Raise (ValidationError [Lit "Invalid rating"])
  else if (duration f <? MIN_DURATION) || (duration f >? MAX_DURATION) then
    Raise (ValidationError [Lit "duration must be between "; Int MIN_DURATION;
                            Lit " and "; Int MAX_DURATION; Lit " minutes"])
  else Ok tt.

(** [Film(title, duration, rating)]: the two collections take their
    defaults, an empty list and an empty dict. *)
Definition Film_init (title0 : string) (duration0 : Z) (rating0 : string)
  : result Film :=
  let f := mkFilm title0 duration0 rating0 [] ∅ in
  match Film_post_init f with
  | Ok _ => Ok f
  | Raise e => Raise e
  end.

(** [list.sort(key=lambda s: s.start)]: Python's sort is stable, and a stable
    sort has one possible result; insertion from the right computes it. *)
Fixpoint insert_by_start (x : ScreeningTime) (l : list ScreeningTime)
  : list ScreeningTime :=
  match l with
  | [] => [x]
  | y :: l' => if start x <=? start y then x :: y :: l'
               else y :: insert_by_start x l'
  end.

Fixpoint sort_by_start (l : list ScreeningTime) : list ScreeningTime :=
  match l with
  | [] => []
  | x :: l' => insert_by_start x (sort_by_start l')
  end.

(** The test of lines 61-63 of [add_screening]. *)
Definition conflict_test (d : Z) (existing screening : ScreeningTime) : bool :=
  let existing_end := start existing + timedelta_minutes d in
  let screening_end := start screening + timedelta_minutes d in
  ((start existing <=? start screening) && (start screening <? existing_end))
  || ((start existing <? screening_end) && (screening_end <=? existing_end))
  || ((start screening <=? start existing) && (screening_end >=? existing_end)).

(** [Film.add_screening] *)
Definition Film_add_screening (screening : ScreeningTime) : M Film unit :=
  self ← get;
  raise_if (bool_decide (screening ∈ screenings self))
           (ValidationError [Lit "Screening already exists"]) ;;
  for_each (screenings self) (λ existing,
    if bool_decide (hall existing = hall screening) then
      raise_if (conflict_test (duration self) existing screening)
               (ScheduleConflictError
                  [Lit "Screening conflicts with existing screening in hall ";
                   Int (hall existing)])
    else ret tt) ;;
  modify (λ f, set_screenings (screenings f ++ [screening]) f) ;;
  modify (λ f, set_screenings (sort_by_start (screenings f)) f).

(** [list.remove(x)]: drops the first element equal to [x]. *)
Fixpoint list_remove (x : ScreeningTime) (l : list ScreeningTime)
  : list ScreeningTime :=
  match l with
  | [] => []
  | y :: l' => if bool_decide (y = x) then l' else y :: list_remove x l'
  end.

(** [Film.remove_screening] *)
Definition Film_remove_screening (screening : ScreeningTime) : M Film unit :=
  self ← get;
  raise_if (negb (bool_decide (screening ∈ screenings self)))
           (ValidationError [Lit "Screening does not exist"]) ;;
  modify (λ f, set_screenings (list_remove screening (screenings f)) f).

(** [Film.apply_promotion]; the [isinstance] test holds by typing. *)
Definition Film_apply_promotion (now : datetime) (screening : ScreeningTime)
    (promotion : CinemaPromotion) : M Film unit :=
  self ← get;
  raise_if (negb (bool_decide (screening ∈ screenings self)))
           (ValueError [Lit "Screening not found"]) ;;
  raise_if (bool_decide (is_Some (_promotions self !! screening)))
           (ValueError [Lit "Screening already has a promotion"]) ;;
  raise_if (expires_at promotion <? now)
           (ValueError [Lit "Promotion has expired"]) ;;
  modify (λ f, set_promotions (<[screening := promotion]> (_promotions f)) f).

(** [Film.remove_promotion] *)
Definition Film_remove_promotion (screening : ScreeningTime) : M Film unit :=
  self ← get;
  raise_if (negb (bool_decide (screening ∈ screenings self)))
           (ValueError [Lit "Screening not found"]) ;;
  raise_if (negb (bool_decide (is_Some (_promotions self !! screening))))
           (ValueError [Lit "Screening has no promotion"]) ;;
  modify (λ f, set_promotions (delete screening (_promotions f)) f).

(** [Film.get_promotion]: [dict.get] gives [None] for an absent key. *)
Definition Film_get_promotion (screening : ScreeningTime)
  : M Film (option CinemaPromotion) :=
  self ← get;
  raise_if (negb (bool_decide (screening ∈ screenings self)))
           (ValueError [Lit "Screening not found"]) ;;
  ret (_promotions self !! screening).

(** [Film.upcoming_screenings(now)] *)
Definition Film_upcoming_screenings (now : datetime) (f : Film)
  : list ScreeningTime :=
  filter (λ s, now < start s) (screenings f).

End FilmModel.
Export FilmModel.

(** ** [datetime.isoformat] *)

Module Datetime.

(** The library's rendering of a naive [datetime], for instants counted in
    microseconds from 1970-01-01T00:00:00: [YYYY-MM-DDTHH:MM:SS], followed
    by [.ffffff] when the microsecond is not zero.  The ledger code is
    stated for any rendering; this one serves the worked examples. *)

Definition digit (n : Z) : Ascii.ascii :=
  Ascii.ascii_of_nat (48 + Z.to_nat (n `mod` 10)).

Fixpoint zero_padded (width : nat) (n : Z) : string :=
  match width with
  | O => EmptyString
  | S w => zero_padded w (n `div` 10) +:+ String (digit n) EmptyString
  end.

(** Year, month and day of the day number [z] (days from 1970-01-01) in the
    proleptic Gregorian calendar. *)
Definition civil_from_days (z : Z) : Z * Z * Z :=
  let z := z + 719468 in
  let era := z `div` 146097 in
  let doe := z - era * 146097 in
  let yoe := (doe - doe `div` 1460 + doe `div` 36524 - doe `div` 146096) `div` 365 in
  let doy := doe - (365 * yoe + yoe `div` 4 - yoe `div` 100) in
  let mp := (5 * doy + 2) `div` 153 in
  let d := doy - (153 * mp + 2) `div` 5 + 1 in
  let m := if mp <? 10 then mp + 3 else mp - 9 in
  let y := yoe + era * 400 + (if m <=? 2 then 1 else 0) in
  (y, m, d).

Definition isoformat (t : Z) : string :=
  let us := t `mod` 1000000 in
  let secs := t `div` 1000000 in
  let sod := secs `mod` 86400 in
  let '(y, m, d) := civil_from_days (secs `div` 86400) in
  zero_padded 4 y +:+ "-" +:+ zero_padded 2 m +:+ "-" +:+ zero_padded 2 d +:+ "T"
  +:+ zero_padded 2 (sod `div` 3600) +:+ ":"
  +:+ zero_padded 2 ((sod `mod` 3600) `div` 60) +:+ ":"
  +:+ zero_padded 2 (sod `mod` 60)
  +:+ (if us =? 0 then EmptyString else "." +:+ zero_padded 6 us).

End Datetime.

(** ** [src/zaliczeniowy/src/cinema.py]: halls and the reservation ledger *)

Module CinemaModel.

Record Hall := mkHall { number : Z; capacity : Z; available_seats : Z }.

Definition set_available_seats (n : Z) (h : Hall) : Hall :=
  mkHall (number h) (capacity h) n.

(** [Hall.__init__] *)
Definition Hall_init (number0 capacity0 : Z) : result Hall :=
  if capacity0 <=? 0 then
    Raise (ValidationError [Lit "Capacity must be positive"])
  else Ok (mkHall number0 capacity0 capacity0).

(** [Hall.reserve_seats] *)
Definition Hall_reserve_seats (seats : Z) : M Hall unit :=
  self ← get;
  raise_if (seats <=? 0)
           (ValidationError [Lit "Number of seats must be positive"]) ;;
  raise_if (seats >? available_seats self)
           (ReservationError [Lit "Not enough seats available"]) ;;
  modify (λ h, set_available_seats (available_seats h - seats) h).

(** [Hall.cancel_reservation] *)
Definition Hall_cancel_reservation (seats : Z) : M Hall unit :=
  self ← get;
  raise_if (seats <=? 0)
           (ValidationError [Lit "Number of seats must be positive"]) ;;
  raise_if (seats >? capacity self - available_seats self)
           (ReservationError [Lit "Not enough seats to cancel"]) ;;
  modify (λ h, set_available_seats (available_seats h + seats) h).

(** The ledger key is [(screening.hall, screening.start.isoformat())]. *)
Definition ledger_key : Type := Z * string.

Record Cinema := mkCinema {
  name : string;
  _halls : gmap Z Hall;
  _reservations : gmap (Z * string) Z
}.

Definition set_halls (hs : gmap Z Hall) (c : Cinema) : Cinema :=
  mkCinema (name c) hs (_reservations c).
Definition set_reservations (rs : gmap (Z * string) Z) (c : Cinema) : Cinema :=
  mkCinema (name c) (_halls c) rs.

(** [{h.number: h for h in halls}]: a later hall replaces an earlier one of
    the same number. *)
Definition halls_by_number (halls : list Hall) : gmap Z Hall :=
  foldl (λ m h, <[number h := h]> m) ∅ halls.

(** [Cinema.__init__] *)
Definition Cinema_init (name0 : string) (halls : list Hall) : Cinema :=
  mkCinema name0 (halls_by_number halls) ∅.

(** [Cinema.add_hall] *)
Definition Cinema_add_hall (h : Hall) (overwrite : bool) : M Cinema unit :=
  self ← get;
  raise_if (negb overwrite && bool_decide (is_Some (_halls self !! number h)))
           (ValidationError [Lit "Hall #"; Int (number h); Lit " already exists."]) ;;
  modify (λ c, set_halls (<[number h := h]> (_halls c)) c).

(** [Cinema.remove_hall] *)
Definition Cinema_remove_hall (h : Hall) : M Cinema unit :=
  self ← get;
  raise_if (negb (bool_decide (is_Some (_halls self !! number h))))
           (ValidationError [Lit "Hall "; Int (number h); Lit " does not exist"]) ;;
  modify (λ c, set_halls (delete (number h) (_halls c)) c).

(** [Cinema.hall]: [self._halls[number]] raises [KeyError] on a miss. *)
Definition Cinema_hall (number0 : Z) (self : Cinema) : result Hall :=
  match _halls self !! number0 with
  | Some h => Ok h
  | None => Raise (KeyError (Int number0))
  end.

(** [Cinema.halls]: the values of the dict, in its order of enumeration
    (for a finite map, the order of [map_to_list]). *)
Definition Cinema_halls (self : Cinema) : list Hall :=
  (map_to_list (_halls self)).*2.

(** [Cinema.add_screening]: reads the cinema, mutates the film. *)
Definition Cinema_add_screening (self : Cinema) (screening : ScreeningTime)
  : M Film unit :=
  raise_if (negb (bool_decide (is_Some (_halls self !! hall screening))))
           (ValidationError [Lit "Hall "; Int (hall screening); Lit " does not exist"]) ;;
  Film_add_screening screening.

(** [Cinema._validate_reservation] and [Cinema.reserve_seats], the path that
    counts seats on the [Hall] object passed in. *)
Definition Cinema_validate_reservation (self : Cinema) (h : Hall) (seats : Z)
  : result unit :=
  if negb (bool_decide (is_Some (_halls self !! number h))) then
    Raise (ValidationError [Lit "Hall "; Int (number h); Lit " does not exist"])
  else if seats <=? 0 then
    Raise (ValidationError [Lit "Number of seats must be positive"])
  else if seats >? capacity h then
    Raise (ValidationError [Lit "Not enough seats available"])
  else Ok tt.

Definition Cinema_reserve_seats (self : Cinema) (seats : Z) : M Hall unit :=
  h ← get;
  match Cinema_validate_reservation self h seats with
  | Raise e => raise e
  | Ok _ => Hall_reserve_seats seats
  end.

Section Ledger.

(** [datetime.isoformat] is the library's; the ledger code only uses its
    result as part of a key. *)
Context (isoformat : datetime → string).

Definition key_of (screening : ScreeningTime) : Z * string :=
  (hall screening, isoformat (start screening)).

(** [self._reservations.get(key, 0)] *)
Definition reserved_for (key : Z * string) (c : Cinema) : Z :=
  default 0 (_reservations c !! key).

(** [Cinema._validate_reservation_request] *)
Definition Cinema_validate_reservation_request (film : Film)
    (screening : ScreeningTime) (seats : Z) : M Cinema unit :=
  self ← get;
  raise_if (seats <=? 0)
           (ValidationError [Lit "Number of seats must be positive"]) ;;
  raise_if (negb (bool_decide (screening ∈ screenings film)))
           (ReservationError [Lit "Screening does not belong to the given film."]) ;;
  match _halls self !! hall screening with
  | None =>
      raise (ReservationError
               [Lit "Hall #"; Int (hall screening); Lit " not registered in cinema."])
  | Some h =>
      let key := key_of screening in
      let already_reserved := reserved_for key self in
      let available := capacity h - already_reserved in
      raise_if (seats >? available)
               (ReservationError
                  [Lit "Requested "; Int seats; Lit " seats, but only ";
                   Int available; Lit " left in hall "; Int (number h); Lit "."])
  end.

(** [Cinema.reserve] *)
Definition Cinema_reserve (film : Film) (screening : ScreeningTime)
    (seats : Z) (commit : bool) : M Cinema unit :=
  Cinema_validate_reservation_request film screening seats ;;
  if commit then
    modify (λ c,
      let key := key_of screening in
      let already_reserved := reserved_for key c in
      set_reservations (<[key := already_reserved + seats]> (_reservations c)) c)
  else mret tt.

(** [Cinema._validate_cancellation_request] *)
Definition Cinema_validate_cancellation_request (film : Film)
    (screening : ScreeningTime) (seats : Z) : M Cinema unit :=
  self ← get;
  raise_if (seats <=? 0)
           (ValidationError [Lit "Number of seats must be positive"]) ;;
  raise_if (negb (bool_decide (screening ∈ screenings film)))
           (ReservationError [Lit "Screening does not belong to the given film."]) ;;
  match _halls self !! hall screening with
  | None =>
      raise (ReservationError
               [Lit "Hall #"; Int (hall screening); Lit " not registered in cinema."])
  | Some h =>
      let key := key_of screening in
      let already_reserved := reserved_for key self in
      raise_if (seats >? already_reserved)
               (ReservationError
                  [Lit "Requested to cancel "; Int seats; Lit " seats, but only ";
                   Int already_reserved; Lit " reserved in hall "; Int (number h);
                   Lit "."])
  end.

(** [Cinema.cancel_reservation] *)
Definition Cinema_cancel_reservation (film : Film) (screening : ScreeningTime)
    (seats : Z) : M Cinema unit :=
  Cinema_validate_cancellation_request film screening seats ;;
  modify (λ c,
    let key := key_of screening in
    let already_reserved := reserved_for key c in
    set_reservations (<[key := already_reserved - seats]> (_reservations c)) c).

(** [Cinema.available_seats]: [self._halls[screening.hall]] raises
    [KeyError] when the hall is not registered. *)
Definition Cinema_available_seats (screening : ScreeningTime) (self : Cinema)
  : result Z :=
  match _halls self !! hall screening with
  | None => Raise (KeyError (Int (hall screening)))
  | Some h => Ok (capacity h - reserved_for (key_of screening) self)
  end.

(** [Cinema.get_available_seats] *)
Definition Cinema_get_available_seats (film : Film) (screening : ScreeningTime)
    (self : Cinema) : result Z :=
  Cinema_available_seats screening self.

End Ledger.

End CinemaModel.
Export CinemaModel.

(** ** [src/zaliczeniowy/src/cinema.py]: persistence *)

Module Persistence.

#[local] Set Warnings "-register-all".

(** What [json.loads] returns and [json.dumps] accepts.  An object parsed
    from text has one entry per key. *)
Inductive json :=
| JNull
| JBool (b : bool)
| JInt (z : Z)
| JFloat (x : float)
| JStr (s : string)
| JArr (items : list json)
| JObj (fields : list (string * json)).

(** A file as [Path.read_text] followed by [json.loads] sees it. *)
Inductive file :=
| Unreadable          (* [read_text] raises [OSError] *)
| NotText             (* [read_text] raises [UnicodeDecodeError], a [ValueError] *)
| NotJSON             (* [json.loads] raises [JSONDecodeError] *)
| TooNested           (* the text of a value nested deeper than the call stack
                         leaves room for: [json.loads] raises [RecursionError] *)
| Document (j : json) (* the text of [j] *).

(** How [Path.write_text] fails on a path, when it does.  It opens the file
    for writing, which truncates it, writes the text and closes the file;
    each step can raise [OSError]. *)
Inductive write_failure :=
| OpenFails           (* no such directory, no permission: the file is untouched *)
| WriteFails          (* the file is truncated and less than the whole text
                         reaches it: what is left is not JSON *)
| CloseFails          (* the whole text is in the file when [close] raises *).

Record FileSystem := mkFS {
  files : gmap string file;
  write_failures : gmap string write_failure
}.

Definition leave (path : string) (f : file) (fs : FileSystem) : FileSystem :=
  mkFS (<[path := f]> (files fs)) (write_failures fs).

Definition write (path : string) (j : json) (fs : FileSystem) : FileSystem :=
  leave path (Document j) fs.

(** [sys.int_info.default_max_str_digits]: the longest decimal integer that
    [int] and [str] convert, which [json] relies on in both directions. *)
Definition int_max_str_digits : Z := 4300.

(** [sys.getrecursionlimit()] *)
Definition recursion_limit : nat := 1000.

(** The least integer of more digits than that, [10 ^ 4300], computed
    once. *)
Definition int_max_str_bound : Z := Eval vm_compute in 10 ^ int_max_str_digits.

Definition within_digits (z : Z) : bool := Z.abs z <? int_max_str_bound.
Arguments within_digits : simpl never.

(** The [ValueError] of [int] on a literal of too many digits (its message
    goes on to count them; [load] drops it). *)
Definition digits_error : exn :=
  ValueError [Lit "Exceeds the limit ("; Int int_max_str_digits;
              Lit " digits) for integer string conversion"].

(** What the scanner of [json.loads] raises on the text of [j], read from
    left to right with [room] levels of recursion left: one level for every
    array or object entered, [ValueError] at an integer of too many
    digits.  No text gets more levels than the recursion limit; one that
    asks for fewer, but for more than the call stack has left, is the file
    [TooNested]. *)
Fixpoint scan (room : nat) (j : json) {struct j} : result unit :=
  match j with
  | JInt z =>
      if within_digits z then Ok tt else Raise digits_error
  | JArr items =>
      match room with
      | O => Raise RecursionError
      | S room' =>
          foldr (λ x rest, match scan room' x with
                           | Ok _ => rest
                           | Raise e => Raise e
                           end) (Ok tt) items
      end
  | JObj fields =>
      match room with
      | O => Raise RecursionError
      | S room' =>
          foldr (λ kv rest, match scan room' kv.2 with
                            | Ok _ => rest
                            | Raise e => Raise e
                            end) (Ok tt) fields
      end
  | _ => Ok tt
  end.

(** [json.loads(Path(file_path).read_text())] *)
Definition read_json (path : string) (fs : FileSystem) : result json :=
  match files fs !! path with
  | None => Raise OSError
  | Some Unreadable => Raise OSError
  | Some NotText => Raise (ValueError [Lit "invalid start byte"])
  | Some NotJSON => Raise JSONDecodeError
  | Some TooNested => Raise RecursionError
  | Some (Document j) => scan recursion_limit j ;; Ok j
  end.

Fixpoint assoc (k : string) (fields : list (string * json)) : option json :=
  match fields with
  | [] => None
  | (k', v) :: rest => if bool_decide (k' = k) then Some v else assoc k rest
  end.

(** [v[k]] for a string [k] *)
Definition subscript (v : json) (k : string) : result json :=
  match v with
  | JObj fields =>
      match assoc k fields with
      | Some x => Ok x
      | None => Raise (KeyError (Lit k))
      end
  | _ => Raise TypeError
  end.

(** [v.get(k, d)] *)
Definition get_default (v : json) (k : string) (d : json) : result json :=
  match v with
  | JObj fields => Ok (default d (assoc k fields))
  | _ => Raise AttributeError
  end.

(** [for x in v] *)
Definition iterate (v : json) : result (list json) :=
  match v with
  | JArr items => Ok items
  | JObj fields => Ok (map (λ p, JStr p.1) fields)
  | JStr s => Ok (map (λ ch, JStr (String ch EmptyString)) (String.list_ascii_of_string s))
  | _ => Raise TypeError
  end.

(** [v <= 0] *)
Definition le_zero (v : json) : result bool :=
  match v with
  | JInt z => Ok (z <=? 0)
  | JBool b => Ok (negb b)
  | JFloat x => Ok (PrimFloat.leb x 0%float)
  | _ => Raise TypeError
  end.

(** Lists and dicts cannot be dict keys. *)
Definition hashable (v : json) : bool :=
  match v with
  | JArr _ | JObj _ => false
  | _ => true
  end.

(** The [Hall] object [load] builds from one entry, its attributes still the
    values read from the file. *)
Record raw_hall := mkRawHall {
  raw_number : json;
  raw_capacity : json;
  raw_available_seats : json
}.

(** One turn of the first loop of [load]: [Hall(number=..., capacity=...)]
    with the test of [Hall.__init__], then the assignment of
    [available_seats]. *)
Definition load_hall (h_dict : json) : result raw_hall :=
  number0 ← subscript h_dict "number";
  capacity0 ← subscript h_dict "capacity";
  nonpositive ← le_zero capacity0;
  if (nonpositive : bool) then
    Raise (ValidationError [Lit "Capacity must be positive"])
  else
    available ← subscript h_dict "available_seats";
    Ok (mkRawHall number0 capacity0 available).

(** One turn of the second loop: the key, the value, the assignment (which
    hashes the key). *)
Definition load_reservation (rec : json) : result (json * json * json) :=
  hall0 ← subscript rec "hall";
  start_iso ← subscript rec "screening_start";
  reserved ← subscript rec "reserved";
  if hashable hall0 && hashable start_iso then Ok (hall0, start_iso, reserved)
  else Raise TypeError.

Record raw_cinema := mkRawCinema {
  raw_name : json;
  raw_halls : list raw_hall;
  raw_reservations : list (json * json * json)
}.

(** The body of the [try] of [load]. *)
Definition load_body (file_path : string) (fs : FileSystem) : result raw_cinema :=
  data ← read_json file_path fs;
  halls_json ← subscript data "halls";
  h_dicts ← iterate halls_json;
  halls ← mapM load_hall h_dicts;
  meta ← subscript data "meta";
  name0 ← subscript meta "name";
  (* [cls(name, halls)] hashes every hall number *)
  if negb (forallb (λ h, hashable (raw_number h)) halls) then Raise TypeError
  else
    reservations ← get_default data "reservations" (JArr []);
    recs ← iterate reservations;
    entries ← mapM load_reservation recs;
    Ok (mkRawCinema name0 halls entries).

(** The exceptions named by the [except] clause of [load].
    [JSONDecodeError] is a [ValueError]; [RecursionError] is a
    [RuntimeError], which the clause does not name. *)
Definition caught_by_load (e : exn) : bool :=
  match e with
  | OSError | JSONDecodeError | KeyError _ | TypeError | ValueError _ => true
  | _ => false
  end.

(** The values of a loaded cinema that are what the annotations say. *)
Definition typed_hall (r : raw_hall) : option Hall :=
  match raw_number r, raw_capacity r, raw_available_seats r with
  | JInt n, JInt c, JInt a => Some (mkHall n c a)
  | _, _, _ => None
  end.

Definition typed_entry (e : json * json * json) : option (Z * string * Z) :=
  match e with
  | (JInt h, JStr s, JInt r) => Some (h, s, r)
  | _ => None
  end.

(** [cinema._reservations[key] = reserved], entry after entry. *)
Definition assign_all (entries : list (Z * string * Z)) (c : Cinema) : Cinema :=
  foldl (λ c e, set_reservations (<[e.1 := e.2]> (_reservations c)) c) c entries.

Definition typed_cinema (r : raw_cinema) : option Cinema :=
  match raw_name r with
  | JStr n =>
      halls ← mapM typed_hall (raw_halls r);
      entries ← mapM typed_entry (raw_reservations r);
      Some (assign_all entries (Cinema_init n halls))
  | _ => None
  end.

(** The outcome of [load]: a cinema, an exception, or a cinema some value
    of which is not of the annotated type (a float capacity, a hall number
    that is a string), which this development does not follow further. *)
Inductive loaded :=
| Loaded (c : Cinema)
| Failed (e : exn)
| Untyped.

(** [Cinema.load] *)
Definition Cinema_load (file_path : string) (fs : FileSystem) : loaded :=
  match load_body file_path fs with
  | Raise e =>
      if caught_by_load e then
        Failed (IOError [Lit "Unable to load cinema data from "; Lit file_path])
      else Failed e
  | Ok r =>
      match typed_cinema r with
      | Some c => Loaded c
      | None => Untyped
      end
  end.

Definition hall_json (h : Hall) : json :=
  JObj [("number", JInt (number h));
        ("capacity", JInt (capacity h));
        ("available_seats", JInt (available_seats h))].

Definition reservation_json (e : Z * string * Z) : json :=
  JObj [("hall", JInt e.1.1);
        ("screening_start", JStr e.1.2);
        ("reserved", JInt e.2)].

(** The payload of [save], for a given enumeration of the two dicts. *)
Definition payload_of (name0 timestamp : string) (halls : list Hall)
    (entries : list (Z * string * Z)) : json :=
  JObj [("meta", JObj [("name", JStr name0); ("timestamp", JStr timestamp)]);
        ("halls", JArr (map hall_json halls));
        ("reservations", JArr (map reservation_json entries))].

(** [self._halls.values()] and [self._reservations.items()].  A Python dict
    enumerates in insertion order, which a finite map does not record;
    [load_payload_any_order] shows that [load] does not depend on it. *)
Definition payload (timestamp : string) (self : Cinema) : json :=
  payload_of (name self) timestamp
             (map snd (map_to_list (_halls self)))
             (map_to_list (_reservations self)).

(** Whether [int.__repr__] prints every integer of [j]. *)
Fixpoint ints_within (j : json) : bool :=
  match j with
  | JInt z => within_digits z
  | JArr items => forallb ints_within items
  | JObj fields => forallb (λ kv, ints_within kv.2) fields
  | _ => true
  end.

(** [json.dumps(payload, indent=2)] on a payload of [save], three levels
    deep: the text, kept as the value it denotes, or the [ValueError] of
    an integer of too many digits.  It cannot raise [TypeError] on strings
    and integers. *)
Definition dumps (j : json) : result json :=
  if ints_within j then Ok j
  else
    Raise (ValueError
             [Lit "Exceeds the limit ("; Int int_max_str_digits;
              Lit " digits) for integer string conversion; use sys.set_int_max_str_digits() to increase the limit"]).

Definition lift {S A : Type} (r : result A) : M S A := λ s, (r, s).

(** [Cinema.save]; [timestamp] is [datetime.now(timezone.utc).isoformat()].
    The argument of [write_text] is evaluated before the file is opened,
    and the [except] clause does not name [ValueError]: the one of
    [json.dumps] passes through.  An [OSError] of [write_text] becomes
    [IOError], whatever has happened to the file by then. *)
Definition Cinema_save (self : Cinema) (file_path timestamp : string)
  : M FileSystem unit :=
  text ← lift (dumps (payload timestamp self));
  fs ← get;
  let failed := IOError [Lit "Unable to write cinema data to "; Lit file_path] in
  match write_failures fs !! file_path with
  | None => modify (write file_path text)
  | Some OpenFails => raise failed
  | Some WriteFails => modify (leave file_path NotJSON) ;; raise failed
  | Some CloseFails => modify (write file_path text) ;; raise failed
  end.

End Persistence.
Export Persistence.

(** ** Notions used to state the properties *)

Module Notions.

(** Two half-open intervals [[a, b)] and [[c, d)] intersect when some
    instant lies in both. *)
Definition intersect (a b c d : Z) : Prop :=
  ∃ t, (a ≤ t < b) ∧ (c ≤ t < d).

(** The interval a screening occupies in a film of [d] minutes. *)
Definition ends (d : Z) (s : ScreeningTime) : Z := start s + timedelta_minutes d.

Definition overlapping (d : Z) (e s : ScreeningTime) : Prop :=
  hall e = hall s ∧ intersect (start e) (ends d e) (start s) (ends d s).

(** Ascending by start time. *)
Definition chronological (l : list ScreeningTime) : Prop :=
  StronglySorted (λ a b, start a ≤ start b) l.

(** No two different screenings of the list overlap in one hall. *)
Definition conflict_free (d : Z) (l : list ScreeningTime) : Prop :=
  ∀ a b, a ∈ l → b ∈ l → a ≠ b → ¬ overlapping d a b.

(** The scan of the existing screenings in [add_screening]: its body, the
    test it applies, and the first screening that fails it. *)
Definition scan_body (d : Z) (screening existing : ScreeningTime) : M Film unit :=
  if bool_decide (hall existing = hall screening) then
    raise_if (conflict_test d existing screening)
             (ScheduleConflictError
                [Lit "Screening conflicts with existing screening in hall ";
                 Int (hall existing)])
  else ret tt.

Definition clashes (d : Z) (screening existing : ScreeningTime) : bool :=
  bool_decide (hall existing = hall screening) && conflict_test d existing screening.

Fixpoint first_clash (d : Z) (screening : ScreeningTime)
    (l : list ScreeningTime) : option ScreeningTime :=
  match l with
  | [] => None
  | e :: l' => if clashes d screening e then Some e else first_clash d screening l'
  end.

(** The films that the constructor and the methods of [Film] produce. *)
Inductive film_op :=
| AddScreening (s : ScreeningTime)
| RemoveScreening (s : ScreeningTime)
| ApplyPromotion (now : datetime) (s : ScreeningTime) (p : CinemaPromotion)
| RemovePromotion (s : ScreeningTime).

Definition film_call (o : film_op) : M Film unit :=
  match o with
  | AddScreening s => Film_add_screening s
  | RemoveScreening s => Film_remove_screening s
  | ApplyPromotion now s p => Film_apply_promotion now s p
  | RemovePromotion s => Film_remove_promotion s
  end.

(** What the constructor and the methods maintain. *)
Record film_inv (f : Film) : Prop := mk_film_inv {
  inv_duration : 0 < duration f;
  inv_nodup : NoDup (screenings f);
  inv_chronological : chronological (screenings f);
  inv_conflict_free : conflict_free (duration f) (screenings f)
}.

Inductive film_reachable : Film → Prop :=
| film_fresh title0 duration0 rating0 f :
    Film_init title0 duration0 rating0 = Ok f → film_reachable f
| film_after o f :
    film_reachable f → film_reachable (after (film_call o f)).

(** *** The cinema and its snapshots *)

(** Every hall is filed under its own number and has seats. *)
Definition cinema_wf (c : Cinema) : Prop :=
  ∀ k h, _halls c !! k = Some h → number h = k ∧ 0 < capacity h.

Definition halls_keyed (c : Cinema) : Prop :=
  ∀ k h, _halls c !! k = Some h → number h = k.

(** Every ledger entry names a registered hall and stays within its
    capacity. *)
Definition ledger_ok (c : Cinema) : Prop :=
  ∀ key reserved, _reservations c !! key = Some reserved →
    ∃ h, _halls c !! key.1 = Some h ∧ 0 ≤ reserved ≤ capacity h.

(** The public operations, on a cinema and the files it saves to. *)
Inductive cinema_op :=
| AddHall (h : Hall) (overwrite : bool)
| RemoveHall (h : Hall)
| Reserve (film : Film) (screening : ScreeningTime) (seats : Z) (commit : bool)
| CancelReservation (film : Film) (screening : ScreeningTime) (seats : Z)
| Save (file_path timestamp : string)
| Load (file_path : string).

Record world := mkWorld { the_cinema : Cinema; the_files : FileSystem }.

(** One call.  A call that raises leaves what the method left; [load]
    replaces the cinema at hand by the one it returns. *)
Definition perform (isoformat : datetime → string) (o : cinema_op) (w : world)
  : world :=
  match o with
  | AddHall h overwrite =>
      mkWorld (after (Cinema_add_hall h overwrite (the_cinema w))) (the_files w)
  | RemoveHall h =>
      mkWorld (after (Cinema_remove_hall h (the_cinema w))) (the_files w)
  | Reserve film screening seats commit =>
      mkWorld (after (Cinema_reserve isoformat film screening seats commit
                        (the_cinema w))) (the_files w)
  | CancelReservation film screening seats =>
      mkWorld (after (Cinema_cancel_reservation isoformat film screening seats
                        (the_cinema w))) (the_files w)
  | Save file_path timestamp =>
      mkWorld (the_cinema w)
              (after (Cinema_save (the_cinema w) file_path timestamp (the_files w)))
  | Load file_path =>
      match Cinema_load file_path (the_files w) with
      | Loaded c => mkWorld c (the_files w)
      | _ => w
      end
  end.

(** The worlds that sequences of calls reach from [w0], each call subject
    to [allowed]. *)
Inductive reachable (isoformat : datetime → string)
    (allowed : cinema_op → world → Prop) (w0 : world) : world → Prop :=
| reach_start : reachable isoformat allowed w0 w0
| reach_step o w :
    reachable isoformat allowed w0 w → allowed o w →
    reachable isoformat allowed w0 (perform isoformat o w).


(** The calls that cannot pull a hall from under a ledger entry: no
    [add_hall] with [overwrite=True], and [remove_hall] only of a hall that
    no ledger entry names. *)
Definition ledger_safe (o : cinema_op) (w : world) : Prop :=
  match o with
  | AddHall _ overwrite => overwrite = false
  | RemoveHall h =>
      ∀ key reserved, _reservations (the_cinema w) !! key = Some reserved →
        key.1 ≠ number h
  | _ => True
  end.

(** No file holds a snapshot yet. *)
Definition no_snapshots (fs : FileSystem) : Prop :=
  ∀ path j, files fs !! path ≠ Some (Document j).

(** Every snapshot on file was written by [save]. *)
Definition snapshots_saved (fs : FileSystem) : Prop :=
  ∀ path j, files fs !! path = Some (Document j) →
    ∃ c timestamp, j = payload timestamp c ∧ halls_keyed c ∧ ledger_ok c.

(** [m[k] = v] *)
Definition assign {K V : Type} `{Countable K} (m : gmap K V) (e : K * V)
  : gmap K V := <[e.1 := e.2]> m.

(** The attributes [load] reads back for a hall and a ledger entry. *)
Definition raw_of_hall (h : Hall) : raw_hall :=
  mkRawHall (JInt (number h)) (JInt (capacity h)) (JInt (available_seats h)).

Definition raw_of_entry (e : Z * string * Z) : json * json * json :=
  (JInt e.1.1, JStr e.1.2, JInt e.2).

(** *** The fixtures of the repository's tests *)

Definition test_start : datetime := 1900000000000000.  (* 2030-03-17T17:46:40 *)
Definition test_screening : ScreeningTime := mkScreeningTime test_start 1.
Definition test_film : Film := mkFilm "Test Film" 120 "PG-13" [test_screening] ∅.
Definition test_hall : Hall := mkHall 1 100 100.
Definition test_cinema : Cinema := Cinema_init "Test Cinema" [test_hall].
Definition test_key : Z * string := (1, "2030-03-17T17:46:40").
Definition no_files : FileSystem := mkFS ∅ ∅.

(** *** Snapshots for the worked examples *)

Definition one_file (path : string) (f : file) : FileSystem := mkFS {[ path := f ]} ∅.

(** Scenario D: one hall of 100 with [available_seats] 50, and 50 seats
    reserved for the test screening. *)
Definition half_booked : Cinema :=
  mkCinema "Test Cinema" {[ 1 := mkHall 1 100 50 ]} {[ test_key := 50 ]}.

Definition meta_json : json :=
  JObj [("name", JStr "Test Cinema");
        ("timestamp", JStr "2030-03-17T12:00:00+00:00")].








(** *** Runs for the worked examples *)

Definition fresh_world : world := mkWorld test_cinema no_files.



(** A snapshot that no [save] wrote: 500 seats reserved in a hall of 100. *)
Definition foreign_snapshot : json :=
  payload_of "Test Cinema" "2030-03-17T12:00:00+00:00" [test_hall] [(test_key, 500)].

Definition foreign_world : world :=
  mkWorld test_cinema (one_file "test_cinema.json" (Document foreign_snapshot)).

(** Reserve, cancel, register a second hall, save and load back. *)
Definition safe_run : list cinema_op :=
  [Reserve test_film test_screening 50 true;
   CancelReservation test_film test_screening 30;
   AddHall (mkHall 2 50 50) false;
   Save "test_cinema.json" "2030-03-17T12:00:00+00:00";
   Reserve test_film test_screening 80 true;
   Load "test_cinema.json"].

Definition run (isoformat : datetime → string) (ops : list cinema_op) (w : world)
  : world :=
  foldl (λ w o, perform isoformat o w) w ops.

(** What holds of every world reached by ledger-safe calls. *)
Definition world_ok (w : world) : Prop :=
  halls_keyed (the_cinema w) ∧ ledger_ok (the_cinema w) ∧
  snapshots_saved (the_files w).

(** The halls handed to [add_hall] come from the [Hall] constructor, whose
    capacity is positive and never changes. *)
Definition halls_constructed (o : cinema_op) (w : world) : Prop :=
  match o with
  | AddHall h _ => 0 < capacity h
  | _ => True
  end.

(** *** Further notions: films, halls and runs *)

(** The ratings that [Film.__post_init__] accepts. *)
Definition accepted_ratings : list string := ["G"; "PG"; "PG-13"; "R"; "NC-17"].

(** Two screenings of a film of [d] minutes that follow one another. *)
Definition apart (d : Z) (a b : ScreeningTime) : Prop :=
  ends d a ≤ start b ∨ ends d b ≤ start a.

(** The last hall of a list filed under a number. *)
Definition last_numbered (n : Z) (halls : list Hall) : option Hall :=
  last (filter (λ h, number h = n) halls).

(** The last entry of a list of assignments for a key. *)
Definition last_assigned {K V : Type} `{EqDecision K} (k : K) (l : list (K * V))
  : option V :=
  snd <$> last (filter (λ e, e.1 = k) l).

(** Calls that are ledger-safe and pass halls built by [Hall(...)]. *)
Definition careful (o : cinema_op) (w : world) : Prop :=
  ledger_safe o w ∧ halls_constructed o w.

(** A film built by the constructor and grown by its methods. *)
Definition monday : CinemaPromotion := mkPromotion "Monday" 20 2000000000000000.

Definition grown_film : Film :=
  after (film_call (ApplyPromotion 0 test_screening monday)
    (after (film_call (AddScreening (mkScreeningTime 1900010800000000 1))
      (after (film_call (AddScreening test_screening)
        (mkFilm "Test Film" 120 "PG-13" [] ∅)))))).

(** A run with an overwrite, a removal and a load of a foreign file. *)
Definition rough_run : list cinema_op :=
  [Reserve test_film test_screening 50 true;
   AddHall (mkHall 1 10 10) true;
   AddHall (mkHall 2 50 20) false;
   RemoveHall (mkHall 1 10 10);
   Load "test_cinema.json"].

(** A cinema of two halls, and a snapshot with a hall number and a
    ledger key that occur twice. *)
Definition two_halls : Cinema :=
  mkCinema "Test Cinema" {[ 1 := mkHall 1 100 50; 2 := mkHall 2 50 50 ]}
           {[ test_key := 50; (2, "2030-03-17T20:46:40") := 5 ]}.

Definition repeated_snapshot : json :=
  payload_of "Test Cinema" "2030-03-17T12:00:00+00:00"
             [mkHall 1 100 100; mkHall 1 80 80]
             [(test_key, 10); (test_key, 30)].

(** A snapshot whose one hall has the capacity [NaN], which [json.loads]
    reads as a float. *)
Definition nan_capacity_snapshot : json :=
  JObj [("meta", meta_json);
        ("halls", JArr [JObj [("number", JInt 1); ("capacity", JFloat nan);
                              ("available_seats", JInt 0)]]);
        ("reservations", JArr [])].


End Notions.
Export Notions.

(** ** Properties of [Film] *)

Module FilmProps.

(** Unfolds a method down to its tests. *)
Ltac method :=
  unfold outcome, after, raise_if, mbind, mret, M_bind, M_ret, bind, ret,
    raise, get, modify in *; simpl in *.

Lemma timedelta_minutes_pos d : 0 < d → 0 < timedelta_minutes d.
Proof. unfold timedelta_minutes. lia. Qed.

(** For films of positive duration the three-clause test of
    [add_screening] is intersection of the half-open intervals. *)
Lemma conflict_test_intersect d e s :
  0 < d →
  conflict_test d e s = true ↔
  intersect (start e) (ends d e) (start s) (ends d s).
Proof.
  intros Hd. pose proof (timedelta_minutes_pos d Hd) as Hm.
  unfold conflict_test, intersect, ends.
  rewrite !orb_true_iff, !andb_true_iff, Z.geb_le, !Z.leb_le, !Z.ltb_lt.
  split.
  - intros [[[H1 H2]|[H1 H2]]|[H1 H2]].
    + exists (start s). lia.
    + exists (start e). lia.
    + exists (start e). lia.
  - intros (t & Ht1 & Ht2).
    destruct (Z.le_gt_cases (start e) (start s)); [left; left | left; right]; lia.
Qed.

Lemma overlapping_sym d a b : overlapping d a b → overlapping d b a.
Proof. intros [Hh (t & H1 & H2)]. split; [done | by exists t]. Qed.

Lemma scan_result d s l f :
  for_each l (scan_body d s) f =
  match first_clash d s l with
  | Some e =>
      (Raise (ScheduleConflictError
                [Lit "Screening conflicts with existing screening in hall ";
                 Int (hall e)]), f)
  | None => (Ok tt, f)
  end.
Proof.
  induction l as [|e l IH]; [done|].
  simpl. unfold bind at 1, scan_body at 1, clashes at 1.
  destruct (bool_decide (hall e = hall s)); simpl; [|by rewrite IH].
  destruct (conflict_test d e s); simpl; [done | by rewrite IH].
Qed.

Lemma first_clash_Some d s l e :
  first_clash d s l = Some e → e ∈ l ∧ clashes d s e = true.
Proof.
  induction l as [|x l IH]; [done|]. simpl.
  destruct (clashes d s x) eqn:Hx.
  - intros [= ->]. split; [left | done].
  - intros [? ?]%IH. split; [by right | done].
Qed.

Lemma first_clash_None d s l :
  first_clash d s l = None ↔ ∀ e, e ∈ l → clashes d s e = false.
Proof.
  induction l as [|x l IH]; simpl.
  - split; [|done]. intros _ e He. by apply elem_of_nil in He.
  - destruct (clashes d s x) eqn:Hx.
    + split; [done|]. intros H. specialize (H x (list_elem_of_here _ _)). congruence.
    + rewrite IH. split.
      * intros H e [->|He]%elem_of_cons; auto.
      * intros H e He. apply H. by right.
Qed.

Lemma clashes_overlapping d s e :
  0 < d → clashes d s e = true ↔ overlapping d e s.
Proof.
  intros Hd. unfold clashes, overlapping.
  by rewrite andb_true_iff, bool_decide_eq_true, conflict_test_intersect.
Qed.

(** [add_screening] in closed form. *)
Lemma add_screening_unfold s f :
  Film_add_screening s f =
  if bool_decide (s ∈ screenings f) then
    (Raise (ValidationError [Lit "Screening already exists"]), f)
  else
    match first_clash (duration f) s (screenings f) with
    | Some e =>
        (Raise (ScheduleConflictError
                  [Lit "Screening conflicts with existing screening in hall ";
                   Int (hall e)]), f)
    | None => (Ok tt, set_screenings (sort_by_start (screenings f ++ [s])) f)
    end.
Proof.
  unfold Film_add_screening. method.
  destruct (bool_decide (s ∈ screenings f)); [done|]. simpl.
  change (for_each (screenings f) _ f)
    with (for_each (screenings f) (scan_body (duration f) s) f).
  rewrite scan_result.
  by destruct (first_clash _ _ _).
Qed.

Lemma add_screening_error_unchanged s f e :
  outcome (Film_add_screening s f) = Raise e → after (Film_add_screening s f) = f.
Proof.
  rewrite add_screening_unfold. unfold outcome, after.
  destruct (bool_decide _); [done|].
  by destruct (first_clash _ _ _).
Qed.

(** *** Sorting *)

Lemma insert_by_start_perm x l : insert_by_start x l ≡ₚ x :: l.
Proof.
  induction l as [|y l IH]; [done|]. simpl.
  destruct (start x <=? start y); [done|].
  rewrite IH. apply Permutation_swap.
Qed.

Lemma sort_by_start_perm l : sort_by_start l ≡ₚ l.
Proof.
  induction l as [|x l IH]; [done|]. simpl.
  by rewrite insert_by_start_perm, IH.
Qed.

Lemma insert_by_start_sorted x l :
  chronological l → chronological (insert_by_start x l).
Proof.
  unfold chronological. induction 1 as [|y l Hl IH Hy]; simpl.
  - repeat constructor.
  - destruct (Z.leb_spec (start x) (start y)) as [Hxy|Hxy].
    + constructor; [by constructor|].
      constructor; [done|].
      eapply Forall_impl; [exact Hy|]. simpl. intros; lia.
    + constructor; [done|].
      rewrite insert_by_start_perm. constructor; [lia | done].
Qed.

Lemma sort_by_start_sorted l : chronological (sort_by_start l).
Proof.
  induction l as [|x l IH]; simpl; [constructor|].
  by apply insert_by_start_sorted.
Qed.

(** Sorting a sorted list leaves it as it is: a failed or repeated sort
    never reorders. *)
Lemma insert_by_start_head x l :
  Forall (λ y, start x ≤ start y) l → insert_by_start x l = x :: l.
Proof.
  destruct 1 as [|y l Hy _]; [done|]. simpl.
  by rewrite (proj2 (Z.leb_le _ _) Hy).
Qed.

Lemma sort_by_start_id l : chronological l → sort_by_start l = l.
Proof.
  induction 1 as [|x l Hl IH Hx]; [done|]. simpl.
  rewrite IH. by apply insert_by_start_head.
Qed.

(** *** What a successful [add_screening] does to the list *)

Lemma add_screening_ok s f f' :
  Film_add_screening s f = (Ok tt, f') →
  (s ∉ screenings f) ∧
  (∀ e, e ∈ screenings f → clashes (duration f) s e = false) ∧
  f' = set_screenings (sort_by_start (screenings f ++ [s])) f.
Proof.
  rewrite add_screening_unfold.
  destruct (bool_decide (s ∈ screenings f)) eqn:Hin; [done|].
  apply bool_decide_eq_false in Hin.
  destruct (first_clash _ _ _) eqn:Hc; [done|].
  intros [= <-]. by rewrite first_clash_None in Hc.
Qed.

Lemma add_screening_outcomes s f :
  after (Film_add_screening s f) = f ∨
  Film_add_screening s f =
    (Ok tt, set_screenings (sort_by_start (screenings f ++ [s])) f).
Proof.
  rewrite add_screening_unfold. unfold after.
  destruct (bool_decide _); [by left|].
  destruct (first_clash _ _ _); [by left | by right].
Qed.

(** *** Removal *)

Lemma list_remove_sublist x l : list_remove x l `sublist_of` l.
Proof.
  induction l as [|y l IH]; simpl; [done|].
  destruct (bool_decide (y = x)); [by apply sublist_cons | by apply sublist_skip].
Qed.

Lemma list_remove_not_in x l : NoDup l → x ∉ list_remove x l.
Proof.
  induction 1 as [|y l Hy Hl IH]; simpl; [apply not_elem_of_nil|].
  destruct (bool_decide (y = x)) eqn:Hyx.
  - by apply bool_decide_eq_true in Hyx as <-.
  - apply bool_decide_eq_false in Hyx. rewrite elem_of_cons. intros [->|?]; auto.
Qed.

Lemma list_remove_other x y l : y ≠ x → y ∈ l → y ∈ list_remove x l.
Proof.
  intros Hne. induction l as [|z l IH]; simpl; [done|].
  rewrite elem_of_cons. destruct (bool_decide (z = x)) eqn:Hz.
  - apply bool_decide_eq_true in Hz as ->. by intros [?|?].
  - rewrite elem_of_cons. intros [->|?]; auto.
Qed.

Lemma chronological_sublist l1 l2 :
  l1 `sublist_of` l2 → chronological l2 → chronological l1.
Proof.
  unfold chronological. induction 1 as [|x l1 l2 Hs IH|x l1 l2 Hs IH].
  - done.
  - intros [Hl Hx]%StronglySorted_inv. constructor; [auto|].
    rewrite Forall_forall in Hx |- *. intros y Hy. apply Hx.
    by eapply elem_of_sublist.
  - intros [Hl _]%StronglySorted_inv. auto.
Qed.

Lemma remove_screening_unfold s f :
  Film_remove_screening s f =
  if bool_decide (s ∈ screenings f) then
    (Ok tt, set_screenings (list_remove s (screenings f)) f)
  else (Raise (ValidationError [Lit "Screening does not exist"]), f).
Proof.
  unfold Film_remove_screening. method.
  by destruct (bool_decide (s ∈ screenings f)).
Qed.

Lemma get_promotion_unfold s f :
  Film_get_promotion s f =
  if bool_decide (s ∈ screenings f) then (Ok (_promotions f !! s), f)
  else (Raise (ValueError [Lit "Screening not found"]), f).
Proof.
  unfold Film_get_promotion. method.
  by destruct (bool_decide (s ∈ screenings f)).
Qed.

(** *** The invariant of reachable films *)

Lemma film_init_inv title0 duration0 rating0 f :
  Film_init title0 duration0 rating0 = Ok f → film_inv f ∧ screenings f = [].
Proof.
  unfold Film_init, Film_post_init. simpl.
  repeat (case_match; try done). intros [= <-].
  split; [|done]. split; simpl.
  - lia.
  - constructor.
  - constructor.
  - intros a b Ha. by apply elem_of_nil in Ha.
Qed.

Lemma add_screening_inv s f : film_inv f → film_inv (after (Film_add_screening s f)).
Proof.
  intros [Hd Hn Hc Hf].
  destruct (add_screening_outcomes s f) as [->|Heq]; [done|].
  pose proof (add_screening_ok _ _ _ Heq) as (Hs & Hcl & _).
  rewrite Heq. unfold after. simpl.
  assert (Hp : sort_by_start (screenings f ++ [s]) ≡ₚ s :: screenings f).
  { by rewrite sort_by_start_perm, Permutation_app_comm. }
  split; simpl.
  - done.
  - rewrite Hp. by constructor.
  - apply sort_by_start_sorted.
  - intros a b. rewrite !Hp, !elem_of_cons.
    intros [->|Ha] [->|Hb] Hne; [done | | | by apply Hf].
    + intros Ho%overlapping_sym%clashes_overlapping; [|done].
      rewrite Hcl in Ho; done.
    + intros Ho%clashes_overlapping; [|done].
      rewrite Hcl in Ho; done.
Qed.

Lemma remove_screening_inv s f :
  film_inv f → film_inv (after (Film_remove_screening s f)).
Proof.
  intros [Hd Hn Hc Hf]. rewrite remove_screening_unfold.
  destruct (bool_decide _); [|done]. unfold after. simpl.
  pose proof (list_remove_sublist s (screenings f)) as Hsub.
  split; simpl.
  - done.
  - by eapply sublist_NoDup.
  - by eapply chronological_sublist.
  - intros a b Ha Hb. apply Hf; by eapply elem_of_sublist.
Qed.

Lemma apply_promotion_unfold now s p f :
  Film_apply_promotion now s p f =
  if negb (bool_decide (s ∈ screenings f)) then
    (Raise (ValueError [Lit "Screening not found"]), f)
  else if bool_decide (is_Some (_promotions f !! s)) then
    (Raise (ValueError [Lit "Screening already has a promotion"]), f)
  else if expires_at p <? now then
    (Raise (ValueError [Lit "Promotion has expired"]), f)
  else (Ok tt, set_promotions (<[s := p]> (_promotions f)) f).
Proof.
  unfold Film_apply_promotion. method.
  destruct (bool_decide (s ∈ screenings f)); simpl; [|done].
  destruct (bool_decide (is_Some _)); simpl; [done|].
  by destruct (expires_at p <? now).
Qed.

Lemma remove_promotion_unfold s f :
  Film_remove_promotion s f =
  if negb (bool_decide (s ∈ screenings f)) then
    (Raise (ValueError [Lit "Screening not found"]), f)
  else if negb (bool_decide (is_Some (_promotions f !! s))) then
    (Raise (ValueError [Lit "Screening has no promotion"]), f)
  else (Ok tt, set_promotions (delete s (_promotions f)) f).
Proof.
  unfold Film_remove_promotion. method.
  destruct (bool_decide (s ∈ screenings f)); simpl; [|done].
  by destruct (bool_decide (is_Some _)).
Qed.

Lemma promotion_calls_keep_screenings o f :
  match o with ApplyPromotion _ _ _ | RemovePromotion _ => True | _ => False end →
  screenings (after (film_call o f)) = screenings f ∧
  duration (after (film_call o f)) = duration f.
Proof.
  destruct o; try done; intros _; simpl.
  - rewrite apply_promotion_unfold. unfold after.
    by repeat (destruct (_ : bool); simpl).
  - rewrite remove_promotion_unfold. unfold after.
    by repeat (destruct (_ : bool); simpl).
Qed.

Lemma film_reachable_inv f : film_reachable f → film_inv f.
Proof.
  induction 1 as [? ? ? f Hinit|o f _ IH].
  - by apply film_init_inv in Hinit as [? _].
  - destruct o as [s|s|now s p|s].
    + by apply add_screening_inv.
    + by apply remove_screening_inv.
    + destruct (promotion_calls_keep_screenings (ApplyPromotion now s p) f I) as [Hs Hd].
      destruct IH. split; by rewrite ?Hs, ?Hd.
    + destruct (promotion_calls_keep_screenings (RemovePromotion s) f I) as [Hs Hd].
      destruct IH. split; by rewrite ?Hs, ?Hd.
Qed.

End FilmProps.

(** ** Scheduling: the claims about [Film] *)

Module FilmSpec.
Import FilmProps.

(** C1, as the code has it.  For a film of positive duration (every film
    the constructor accepts) and a screening [s]:
    - if [s] is already in the list, [add_screening] raises
      [ValidationError] and the list is unchanged;
    - otherwise it raises [ScheduleConflictError] if and only if some
      screening of the list has the hall of [s] and its half-open interval
      [[start, start+duration)] meets that of [s], and when it does not
      raise, [s] is added and the list re-sorted;
    - with one screening at [T] and a duration of 120 minutes, a screening
      of the same hall at [T+120] is accepted and one at [T+60] is
      rejected with [ScheduleConflictError]. *)
Theorem add_screening_conflict_iff (f : Film) (s : ScreeningTime) :
  0 < duration f →
  (s ∈ screenings f →
     Film_add_screening s f =
       (Raise (ValidationError [Lit "Screening already exists"]), f)) ∧
  (s ∉ screenings f →
     (is_ScheduleConflictError (outcome (Film_add_screening s f)) = true
      ↔ ∃ e, e ∈ screenings f ∧ overlapping (duration f) e s) ∧
     (is_ScheduleConflictError (outcome (Film_add_screening s f)) = true
      → after (Film_add_screening s f) = f) ∧
     (is_ScheduleConflictError (outcome (Film_add_screening s f)) = false
      → Film_add_screening s f =
          (Ok tt, set_screenings (sort_by_start (screenings f ++ [s])) f))) ∧
  (∀ (T h : Z) title0 rating0 promos,
     Film_add_screening (mkScreeningTime (T + timedelta_minutes 120) h)
       (mkFilm title0 120 rating0 [mkScreeningTime T h] promos) =
       (Ok tt, mkFilm title0 120 rating0
                 [mkScreeningTime T h;
                  mkScreeningTime (T + timedelta_minutes 120) h] promos) ∧
     is_ScheduleConflictError
       (outcome (Film_add_screening (mkScreeningTime (T + timedelta_minutes 60) h)
                   (mkFilm title0 120 rating0 [mkScreeningTime T h] promos)))
     = true).
Proof.
  intros Hd. split; [|split].
  - intros Hin. rewrite add_screening_unfold. by rewrite bool_decide_eq_true_2.
  - intros Hnin. rewrite add_screening_unfold.
    rewrite bool_decide_eq_false_2 by done. unfold outcome, after.
    destruct (first_clash _ _ _) as [e|] eqn:Hc; simpl.
    + apply first_clash_Some in Hc as [He Hcl].
      split; [|done]. split; [|done]. intros _. exists e.
      split; [done|]. by apply clashes_overlapping.
    + split; [|done]. split; [done|]. intros (e & He & Ho).
      rewrite first_clash_None in Hc. specialize (Hc e He).
      apply clashes_overlapping in Ho; [congruence | done].
  - intros T h title0 rating0 promos. rewrite !add_screening_unfold. simpl.
    unfold timedelta_minutes.
    rewrite !bool_decide_eq_false_2
      by (rewrite list_elem_of_singleton; intros [=]; lia).
    unfold clashes, conflict_test, timedelta_minutes. simpl.
    rewrite bool_decide_eq_true_2 by done. simpl.
    replace (T <=? T + 120 * 60000000) with true by (symmetry; apply Z.leb_le; lia).
    replace (T + 120 * 60000000 <? T + 120 * 60000000) with false
      by (symmetry; apply Z.ltb_ge; lia).
    replace (T <? T + 120 * 60000000 + 120 * 60000000) with true
      by (symmetry; apply Z.ltb_lt; lia).
    replace (T + 120 * 60000000 + 120 * 60000000 <=? T + 120 * 60000000) with false
      by (symmetry; apply Z.leb_gt; lia).
    replace (T + 120 * 60000000 <=? T) with false by (symmetry; apply Z.leb_gt; lia).
    replace (T <=? T + 60 * 60000000) with true by (symmetry; apply Z.leb_le; lia).
    replace (T + 60 * 60000000 <? T + 120 * 60000000) with true
      by (symmetry; apply Z.ltb_lt; lia).
    done.
Qed.

(** C1's theorem at a concrete film: two screenings of hall 1, 180 minutes
    apart, and a candidate that starts during the first. *)
Lemma add_screening_conflict_iff_witness :
  is_ScheduleConflictError
    (outcome (Film_add_screening (mkScreeningTime 3600000000 1)
       (mkFilm "Inception" 120 "PG-13"
          [mkScreeningTime 0 1; mkScreeningTime 10800000000 1] ∅))) = true
  ↔ ∃ e, e ∈ [mkScreeningTime 0 1; mkScreeningTime 10800000000 1]
         ∧ overlapping 120 e (mkScreeningTime 3600000000 1).
Proof.
  refine (proj1 (proj1 (proj2 (add_screening_conflict_iff
    (mkFilm "Inception" 120 "PG-13"
       [mkScreeningTime 0 1; mkScreeningTime 10800000000 1] ∅)
    (mkScreeningTime 3600000000 1) _)) _)).
  - simpl. lia.
  - simpl. rewrite !elem_of_cons, elem_of_nil.
    intros [H|[H|H]]; [discriminate H | discriminate H | exact H].
Defined.

(** C1 as stated fails on a screening that is already in the list: it has
    the same hall as itself and its interval meets itself, yet the call
    raises [ValidationError], not [ScheduleConflictError]. *)
Lemma add_screening_duplicate_counterexample :
  (∃ e, e ∈ screenings (mkFilm "Inception" 120 "PG-13" [mkScreeningTime 0 1] ∅)
        ∧ overlapping 120 e (mkScreeningTime 0 1)) ∧
  Film_add_screening (mkScreeningTime 0 1)
    (mkFilm "Inception" 120 "PG-13" [mkScreeningTime 0 1] ∅) =
    (Raise (ValidationError [Lit "Screening already exists"]),
     mkFilm "Inception" 120 "PG-13" [mkScreeningTime 0 1] ∅) ∧
  is_ScheduleConflictError
    (outcome (Film_add_screening (mkScreeningTime 0 1)
       (mkFilm "Inception" 120 "PG-13" [mkScreeningTime 0 1] ∅))) = false.
Proof.
  split; [|split; reflexivity].
  exists (mkScreeningTime 0 1). split; [by left|].
  split; [done|]. exists 0. unfold ends, timedelta_minutes. simpl. lia.
Qed.

(** Members of a reachable film never overlap in one hall, and are pairwise
    different (the second source sentence of C1). *)
Lemma reachable_conflict_free f a b :
  film_reachable f → a ∈ screenings f → b ∈ screenings f → a ≠ b →
  ¬ overlapping (duration f) a b.
Proof. intros [_ _ _ Hf]%film_reachable_inv. apply Hf. Qed.

(** C6.  After any sequence of [add_screening] calls that all succeed, in
    any order of insertion, the list is ascending by start time; for the
    empty sequence this is the order the film started with, and a film just
    constructed has an empty list. *)
Theorem screenings_chronological (f : Film) (ss : list ScreeningTime) (f' : Film) :
  for_each ss Film_add_screening f = (Ok tt, f') →
  ss ≠ [] ∨ chronological (screenings f) →
  chronological (screenings f').
Proof.
  revert f. induction ss as [|s ss IH]; intros f Hrun Hstart.
  - injection Hrun as <-. by destruct Hstart.
  - simpl in Hrun. unfold bind in Hrun.
    destruct (Film_add_screening s f) as [[[]|e] f1] eqn:Hadd; [|done].
    apply add_screening_ok in Hadd as (_ & _ & ->).
    apply (IH _ Hrun). right. simpl. apply sort_by_start_sorted.
Qed.

(** C6's theorem on a film to which a later screening is added first. *)
Lemma screenings_chronological_witness :
  chronological
    (screenings (after (for_each
       [mkScreeningTime 10800000000 1; mkScreeningTime 0 1; mkScreeningTime 5 2]
       Film_add_screening (mkFilm "Inception" 120 "PG-13" [] ∅)))).
Proof.
  apply (screenings_chronological (mkFilm "Inception" 120 "PG-13" [] ∅)
           [mkScreeningTime 10800000000 1; mkScreeningTime 0 1; mkScreeningTime 5 2]).
  - vm_compute. reflexivity.
  - left. discriminate.
Defined.

(** Failed calls in between do not disturb the order either. *)
Lemma add_screening_keeps_chronological s f :
  chronological (screenings f) →
  chronological (screenings (after (Film_add_screening s f))).
Proof.
  intros Hc. destruct (add_screening_outcomes s f) as [-> | ->]; [done|].
  apply sort_by_start_sorted.
Qed.

(** The list after a successful call holds the old screenings and the new
    one, each once more than before. *)
Lemma add_screening_permutation s f f' :
  Film_add_screening s f = (Ok tt, f') → screenings f' ≡ₚ s :: screenings f.
Proof.
  intros (_ & _ & ->)%add_screening_ok. simpl.
  by rewrite sort_by_start_perm, Permutation_app_comm.
Qed.

(** C9.  In a film without repeated screenings, removing a screening [s]
    that carries a promotion [p] succeeds, takes [s] out of the list and
    leaves the promotion map as it was, entry of [s] included; then
    [get_promotion(s)] raises "Screening not found"; and once a screening
    with the same start and hall has been added again, [get_promotion]
    returns [p].  In a film whose screenings do not conflict, adding it
    again does succeed. *)
Theorem remove_screening_keeps_promotion (f : Film) (s : ScreeningTime)
    (p : CinemaPromotion) :
  NoDup (screenings f) →
  s ∈ screenings f →
  _promotions f !! s = Some p →
  ∃ f1,
    Film_remove_screening s f = (Ok tt, f1) ∧
    (s ∉ screenings f1) ∧
    (∀ e, e ≠ s → e ∈ screenings f → e ∈ screenings f1) ∧
    _promotions f1 = _promotions f ∧
    _promotions f1 !! s = Some p ∧
    Film_get_promotion s f1 = (Raise (ValueError [Lit "Screening not found"]), f1) ∧
    (∀ s' f2, start s' = start s → hall s' = hall s →
       Film_add_screening s' f1 = (Ok tt, f2) →
       Film_get_promotion s f2 = (Ok (Some p), f2)) ∧
    (0 < duration f → conflict_free (duration f) (screenings f) →
       outcome (Film_add_screening s f1) = Ok tt).
Proof.
  intros Hnd Hin Hp.
  exists (set_screenings (list_remove s (screenings f)) f).
  pose proof (list_remove_not_in s _ Hnd) as Hout.
  split; [|split; [|split; [|split; [|split; [|split; [|split]]]]]].
  - rewrite remove_screening_unfold. by rewrite bool_decide_eq_true_2.
  - done.
  - intros e Hne He. simpl. by apply list_remove_other.
  - done.
  - done.
  - rewrite get_promotion_unfold. simpl. by rewrite bool_decide_eq_false_2.
  - intros s' f2 Hst Hh Hadd.
    assert (s' = s) as -> by (destruct s', s; simpl in *; congruence).
    pose proof (add_screening_permutation _ _ _ Hadd) as Hperm.
    apply add_screening_ok in Hadd as (_ & _ & ->).
    rewrite get_promotion_unfold. simpl in *.
    rewrite bool_decide_eq_true_2; [by rewrite Hp|].
    rewrite Hperm. by left.
  - intros Hd Hcf. rewrite add_screening_unfold. simpl.
    rewrite bool_decide_eq_false_2 by done.
    destruct (first_clash _ _ _) as [e|] eqn:Hc; [|done].
    apply first_clash_Some in Hc as [He Hcl].
    apply clashes_overlapping in Hcl; [|done].
    exfalso. apply (Hcf e s); [| done | | done].
    + eapply elem_of_sublist; [done | apply list_remove_sublist].
    + intros ->. done.
Qed.

(** C9's theorem on a film with two screenings and a promotion on the
    first. *)
Lemma remove_screening_keeps_promotion_witness :
  ∃ f1,
    Film_remove_screening (mkScreeningTime 0 1)
      (mkFilm "Inception" 120 "PG-13"
         [mkScreeningTime 0 1; mkScreeningTime 10800000000 1]
         {[ mkScreeningTime 0 1 := mkPromotion "Monday" 20 99 ]}) = (Ok tt, f1) ∧
    screenings f1 = [mkScreeningTime 10800000000 1] ∧
    _promotions f1 !! mkScreeningTime 0 1 = Some (mkPromotion "Monday" 20 99) ∧
    is_ValueError (outcome (Film_get_promotion (mkScreeningTime 0 1) f1)) = true ∧
    outcome (Film_get_promotion (mkScreeningTime 0 1)
               (after (Film_add_screening (mkScreeningTime 0 1) f1)))
      = Ok (Some (mkPromotion "Monday" 20 99)).
Proof.
  destruct (remove_screening_keeps_promotion
    (mkFilm "Inception" 120 "PG-13"
       [mkScreeningTime 0 1; mkScreeningTime 10800000000 1]
       {[ mkScreeningTime 0 1 := mkPromotion "Monday" 20 99 ]})
    (mkScreeningTime 0 1) (mkPromotion "Monday" 20 99))
    as (f1 & Hrem & _ & _ & _ & Hp & Hget & Hre & _).
  - apply NoDup_cons. split; [rewrite list_elem_of_singleton; discriminate|].
    apply NoDup_singleton.
  - by left.
  - reflexivity.
  - exists f1. injection Hrem as <-. simpl. repeat split; reflexivity.
Defined.

End FilmSpec.

(** ** Properties of [Hall] and of the reservation ledger *)

Module CinemaProps.
Import FilmProps.

Lemma Hall_reserve_seats_unfold seats h :
  Hall_reserve_seats seats h =
  if seats <=? 0 then
    (Raise (ValidationError [Lit "Number of seats must be positive"]), h)
  else if seats >? available_seats h then
    (Raise (ReservationError [Lit "Not enough seats available"]), h)
  else (Ok tt, set_available_seats (available_seats h - seats) h).
Proof.
  unfold Hall_reserve_seats. method.
  destruct (seats <=? 0); [done|]. simpl.
  by destruct (seats >? available_seats h).
Qed.

Lemma Hall_cancel_reservation_unfold seats h :
  Hall_cancel_reservation seats h =
  if seats <=? 0 then
    (Raise (ValidationError [Lit "Number of seats must be positive"]), h)
  else if seats >? capacity h - available_seats h then
    (Raise (ReservationError [Lit "Not enough seats to cancel"]), h)
  else (Ok tt, set_available_seats (available_seats h + seats) h).
Proof.
  unfold Hall_cancel_reservation. method.
  destruct (seats <=? 0); [done|]. simpl.
  by destruct (seats >? capacity h - available_seats h).
Qed.

Section Ledger.
Context (isoformat : datetime → string).

(** The four checks of [reserve], and those of [cancel_reservation]. *)
Lemma validate_reservation_request_unfold film s seats c :
  Cinema_validate_reservation_request isoformat film s seats c =
  (if seats <=? 0 then
     Raise (ValidationError [Lit "Number of seats must be positive"])
   else if negb (bool_decide (s ∈ screenings film)) then
     Raise (ReservationError [Lit "Screening does not belong to the given film."])
   else match _halls c !! hall s with
        | None =>
            Raise (ReservationError
                     [Lit "Hall #"; Int (hall s); Lit " not registered in cinema."])
        | Some h =>
            if seats >? capacity h - reserved_for (key_of isoformat s) c then
              Raise (ReservationError
                       [Lit "Requested "; Int seats; Lit " seats, but only ";
                        Int (capacity h - reserved_for (key_of isoformat s) c);
                        Lit " left in hall "; Int (number h); Lit "."])
            else Ok tt
        end, c).
Proof.
  unfold Cinema_validate_reservation_request. method.
  destruct (seats <=? 0); [done|]. simpl.
  destruct (bool_decide (s ∈ screenings film)); [|done]. simpl.
  destruct (_halls c !! hall s) as [h|]; [|done].
  by destruct (seats >? _).
Qed.

Lemma validate_cancellation_request_unfold film s seats c :
  Cinema_validate_cancellation_request isoformat film s seats c =
  (if seats <=? 0 then
     Raise (ValidationError [Lit "Number of seats must be positive"])
   else if negb (bool_decide (s ∈ screenings film)) then
     Raise (ReservationError [Lit "Screening does not belong to the given film."])
   else match _halls c !! hall s with
        | None =>
            Raise (ReservationError
                     [Lit "Hall #"; Int (hall s); Lit " not registered in cinema."])
        | Some h =>
            if seats >? reserved_for (key_of isoformat s) c then
              Raise (ReservationError
                       [Lit "Requested to cancel "; Int seats;
                        Lit " seats, but only ";
                        Int (reserved_for (key_of isoformat s) c);
                        Lit " reserved in hall "; Int (number h); Lit "."])
            else Ok tt
        end, c).
Proof.
  unfold Cinema_validate_cancellation_request. method.
  destruct (seats <=? 0); [done|]. simpl.
  destruct (bool_decide (s ∈ screenings film)); [|done]. simpl.
  destruct (_halls c !! hall s) as [h|]; [|done].
  by destruct (seats >? _).
Qed.

Lemma reserve_unfold film s seats commit c :
  Cinema_reserve isoformat film s seats commit c =
  match (Cinema_validate_reservation_request isoformat film s seats c).1 with
  | Raise e => (Raise e, c)
  | Ok _ =>
      (Ok tt,
       if commit then
         set_reservations
           (<[key_of isoformat s := reserved_for (key_of isoformat s) c + seats]>
              (_reservations c)) c
       else c)
  end.
Proof.
  unfold Cinema_reserve. unfold mbind at 1, M_bind, bind.
  rewrite validate_reservation_request_unfold. simpl.
  repeat (case_match; try done).
Qed.

Lemma cancel_reservation_unfold film s seats c :
  Cinema_cancel_reservation isoformat film s seats c =
  match (Cinema_validate_cancellation_request isoformat film s seats c).1 with
  | Raise e => (Raise e, c)
  | Ok _ =>
      (Ok tt,
       set_reservations
         (<[key_of isoformat s := reserved_for (key_of isoformat s) c - seats]>
            (_reservations c)) c)
  end.
Proof.
  unfold Cinema_cancel_reservation. unfold mbind at 1, M_bind, bind.
  rewrite validate_cancellation_request_unfold. simpl.
  repeat (case_match; try done).
Qed.

(** A call that raises leaves the cinema as it was. *)
Lemma reserve_raise_unchanged film s seats commit c e :
  outcome (Cinema_reserve isoformat film s seats commit c) = Raise e →
  after (Cinema_reserve isoformat film s seats commit c) = c.
Proof. rewrite reserve_unfold. unfold outcome, after. by case_match. Qed.

Lemma cancel_raise_unchanged film s seats c e :
  outcome (Cinema_cancel_reservation isoformat film s seats c) = Raise e →
  after (Cinema_cancel_reservation isoformat film s seats c) = c.
Proof. rewrite cancel_reservation_unfold. unfold outcome, after. by case_match. Qed.

(** The calls in their successful and failing cases, for a screening of
    the film whose hall is registered. *)
Lemma reserved_for_set key v rs c :
  reserved_for key (set_reservations (<[key := v]> rs) c) = v.
Proof. unfold reserved_for. simpl. by rewrite lookup_insert_eq. Qed.

Lemma reserve_ok film s seats commit c h :
  0 < seats → s ∈ screenings film → _halls c !! hall s = Some h →
  seats ≤ capacity h - reserved_for (key_of isoformat s) c →
  Cinema_reserve isoformat film s seats commit c =
    (Ok tt,
     if commit then
       set_reservations
         (<[key_of isoformat s := reserved_for (key_of isoformat s) c + seats]>
            (_reservations c)) c
     else c).
Proof.
  intros Hs Hin Hh Hle.
  rewrite reserve_unfold, validate_reservation_request_unfold. simpl.
  rewrite (proj2 (Z.leb_gt _ _) Hs), bool_decide_eq_true_2, Hh by done. simpl.
  destruct (Z.gtb_spec seats (capacity h - reserved_for (key_of isoformat s) c));
    [lia | done].
Qed.

Lemma cancel_ok film s seats c h :
  0 < seats → s ∈ screenings film → _halls c !! hall s = Some h →
  seats ≤ reserved_for (key_of isoformat s) c →
  Cinema_cancel_reservation isoformat film s seats c =
    (Ok tt,
     set_reservations
       (<[key_of isoformat s := reserved_for (key_of isoformat s) c - seats]>
          (_reservations c)) c).
Proof.
  intros Hs Hin Hh Hle.
  rewrite cancel_reservation_unfold, validate_cancellation_request_unfold. simpl.
  rewrite (proj2 (Z.leb_gt _ _) Hs), bool_decide_eq_true_2, Hh by done. simpl.
  destruct (Z.gtb_spec seats (reserved_for (key_of isoformat s) c)); [lia | done].
Qed.

Lemma cancel_too_many film s seats c h :
  0 < seats → s ∈ screenings film → _halls c !! hall s = Some h →
  reserved_for (key_of isoformat s) c < seats →
  Cinema_cancel_reservation isoformat film s seats c =
    (Raise (ReservationError
              [Lit "Requested to cancel "; Int seats; Lit " seats, but only ";
               Int (reserved_for (key_of isoformat s) c);
               Lit " reserved in hall "; Int (number h); Lit "."]), c).
Proof.
  intros Hs Hin Hh Hlt.
  rewrite cancel_reservation_unfold, validate_cancellation_request_unfold. simpl.
  rewrite (proj2 (Z.leb_gt _ _) Hs), bool_decide_eq_true_2, Hh by done. simpl.
  destruct (Z.gtb_spec seats (reserved_for (key_of isoformat s) c)); [done | lia].
Qed.

End Ledger.

Lemma add_hall_unfold h overwrite c :
  Cinema_add_hall h overwrite c =
  if negb overwrite && bool_decide (is_Some (_halls c !! number h)) then
    (Raise (ValidationError [Lit "Hall #"; Int (number h); Lit " already exists."]), c)
  else (Ok tt, set_halls (<[number h := h]> (_halls c)) c).
Proof. unfold Cinema_add_hall. method. by destruct (_ && _). Qed.

Lemma remove_hall_unfold h c :
  Cinema_remove_hall h c =
  if bool_decide (is_Some (_halls c !! number h)) then
    (Ok tt, set_halls (delete (number h) (_halls c)) c)
  else (Raise (ValidationError [Lit "Hall "; Int (number h); Lit " does not exist"]), c).
Proof. unfold Cinema_remove_hall. method. by destruct (bool_decide _). Qed.

End CinemaProps.

(** ** Seats: the claims about [Hall] and the ledger *)

Module CinemaSpec.
Import FilmProps CinemaProps.

(** C7.  [Hall.reserve_seats(n)] raises [ValidationError] when [n <= 0],
    [ReservationError] when [n > available_seats], and otherwise takes [n]
    from [available_seats]; [Hall.cancel_reservation(n)] raises
    [ValidationError] when [n <= 0], [ReservationError] when
    [n > capacity - available_seats], and otherwise adds [n]; a call that
    raises changes nothing, and both keep
    [0 <= available_seats <= capacity]. *)
Theorem hall_counter (h : Hall) (n : Z) :
  (n ≤ 0 →
     Hall_reserve_seats n h =
       (Raise (ValidationError [Lit "Number of seats must be positive"]), h)) ∧
  (0 < n → available_seats h < n →
     Hall_reserve_seats n h =
       (Raise (ReservationError [Lit "Not enough seats available"]), h)) ∧
  (0 < n → n ≤ available_seats h →
     Hall_reserve_seats n h =
       (Ok tt, mkHall (number h) (capacity h) (available_seats h - n))) ∧
  (n ≤ 0 →
     Hall_cancel_reservation n h =
       (Raise (ValidationError [Lit "Number of seats must be positive"]), h)) ∧
  (0 < n → capacity h - available_seats h < n →
     Hall_cancel_reservation n h =
       (Raise (ReservationError [Lit "Not enough seats to cancel"]), h)) ∧
  (0 < n → n ≤ capacity h - available_seats h →
     Hall_cancel_reservation n h =
       (Ok tt, mkHall (number h) (capacity h) (available_seats h + n))) ∧
  (0 ≤ available_seats h ≤ capacity h →
     (0 ≤ available_seats (after (Hall_reserve_seats n h))
        ≤ capacity (after (Hall_reserve_seats n h))) ∧
     (0 ≤ available_seats (after (Hall_cancel_reservation n h))
        ≤ capacity (after (Hall_cancel_reservation n h)))).
Proof.
  rewrite Hall_reserve_seats_unfold, Hall_cancel_reservation_unfold.
  unfold after, set_available_seats.
  destruct (Z.leb_spec n 0);
    destruct (Z.gtb_spec n (available_seats h));
    destruct (Z.gtb_spec n (capacity h - available_seats h));
    simpl; repeat split; intros; try done; try lia.
Qed.

Section Ledger.
Context (isoformat : datetime → string).

(** C4.  [Cinema.reserve] checks, in this order: [seats <= 0] raises
    [ValidationError]; a screening that is not in [film.screenings] raises
    [ReservationError]; a hall that is not registered raises
    [ReservationError]; [seats] above the capacity less the seats already
    reserved for the key raises [ReservationError]; otherwise the call
    succeeds.  A call that raises leaves the cinema, ledger included, as it
    was: after a failed request of 101 seats for a hall of 100 with nothing
    reserved, [available_seats] is still 100. *)
Theorem reserve_checks (c : Cinema) (film : Film) (s : ScreeningTime)
    (seats : Z) (commit : bool) :
  (seats ≤ 0 →
     Cinema_reserve isoformat film s seats commit c =
       (Raise (ValidationError [Lit "Number of seats must be positive"]), c)) ∧
  (0 < seats → s ∉ screenings film →
     Cinema_reserve isoformat film s seats commit c =
       (Raise (ReservationError
                 [Lit "Screening does not belong to the given film."]), c)) ∧
  (0 < seats → s ∈ screenings film → _halls c !! hall s = None →
     Cinema_reserve isoformat film s seats commit c =
       (Raise (ReservationError
                 [Lit "Hall #"; Int (hall s); Lit " not registered in cinema."]), c)) ∧
  (∀ h, 0 < seats → s ∈ screenings film → _halls c !! hall s = Some h →
     capacity h - reserved_for (key_of isoformat s) c < seats →
     Cinema_reserve isoformat film s seats commit c =
       (Raise (ReservationError
                 [Lit "Requested "; Int seats; Lit " seats, but only ";
                  Int (capacity h - reserved_for (key_of isoformat s) c);
                  Lit " left in hall "; Int (number h); Lit "."]), c)) ∧
  (∀ h, 0 < seats → s ∈ screenings film → _halls c !! hall s = Some h →
     seats ≤ capacity h - reserved_for (key_of isoformat s) c →
     Cinema_reserve isoformat film s seats commit c =
       (Ok tt,
        if commit then
          set_reservations
            (<[key_of isoformat s := reserved_for (key_of isoformat s) c + seats]>
               (_reservations c)) c
        else c)) ∧
  (∀ e, outcome (Cinema_reserve isoformat film s seats commit c) = Raise e →
     after (Cinema_reserve isoformat film s seats commit c) = c) ∧
  (∀ h, s ∈ screenings film → _halls c !! hall s = Some h → capacity h = 100 →
     _reservations c !! key_of isoformat s = None →
     is_ReservationError (outcome (Cinema_reserve isoformat film s 101 commit c))
       = true ∧
     Cinema_available_seats isoformat s
       (after (Cinema_reserve isoformat film s 101 commit c)) = Ok 100).
Proof.
  assert (Hscenario : ∀ h, s ∈ screenings film → _halls c !! hall s = Some h →
    capacity h = 100 → _reservations c !! key_of isoformat s = None →
    is_ReservationError (outcome (Cinema_reserve isoformat film s 101 commit c))
      = true ∧
    Cinema_available_seats isoformat s
      (after (Cinema_reserve isoformat film s 101 commit c)) = Ok 100).
  { intros h Hin Hh Hcap Hnone.
    rewrite reserve_unfold, validate_reservation_request_unfold. simpl.
    rewrite bool_decide_eq_true_2 by done. simpl. rewrite Hh.
    unfold reserved_for, Cinema_available_seats, outcome, after.
    rewrite Hnone, Hcap. simpl.
    rewrite Hh. unfold reserved_for. by rewrite Hnone, Hcap. }
  revert Hscenario. generalize (Cinema_reserve isoformat film s 101 commit c).
  intros r101 Hscenario.
  rewrite reserve_unfold, validate_reservation_request_unfold.
  unfold outcome, after. simpl.
  destruct (Z.leb_spec seats 0) as [Hs|Hs]; simpl.
  { repeat split; intros; try done; try lia; by eapply Hscenario. }
  destruct (bool_decide (s ∈ screenings film)) eqn:Hin; simpl.
  2:{ apply bool_decide_eq_false in Hin.
      repeat split; intros; try done; try lia; by eapply Hscenario. }
  apply bool_decide_eq_true in Hin.
  destruct (_halls c !! hall s) as [h|] eqn:Hh.
  2:{ repeat split; intros; try done; try lia. }
  destruct (Z.gtb_spec seats (capacity h - reserved_for (key_of isoformat s) c));
    simpl; repeat split; intros; simplify_eq; try done; try lia.
  all: by eapply Hscenario.
Qed.

(** C8.  With [commit=False], [reserve] raises what it raises with
    [commit=True] and returns when that returns, and leaves the cinema,
    ledger included, exactly as it was. *)
Theorem reserve_dry_run (c : Cinema) (film : Film) (s : ScreeningTime) (seats : Z) :
  outcome (Cinema_reserve isoformat film s seats false c) =
    outcome (Cinema_reserve isoformat film s seats true c) ∧
  after (Cinema_reserve isoformat film s seats false c) = c ∧
  _reservations (after (Cinema_reserve isoformat film s seats false c)) =
    _reservations c.
Proof.
  rewrite !reserve_unfold. unfold outcome, after.
  by destruct (Cinema_validate_reservation_request _ _ _ _ _).1.
Qed.

(** C5, as the code has it.  For a screening of the film whose hall is
    registered and a positive [seats], [cancel_reservation] raises
    [ReservationError] when [seats] exceeds the count reserved for the key,
    and otherwise lowers that ledger entry by [seats].  With a hall of 100
    and nothing reserved: reserve 50 then cancel 30 leaves 20 reserved and
    80 available; cancelling 30 more raises [ReservationError] and changes
    nothing; cancelling 20 succeeds and leaves 0 reserved; cancelling 1
    more raises [ReservationError]. *)
Theorem cancel_reservation_checks (c : Cinema) (film : Film) (s : ScreeningTime)
    (seats : Z) (h : Hall) :
  0 < seats → s ∈ screenings film → _halls c !! hall s = Some h →
  (reserved_for (key_of isoformat s) c < seats →
     Cinema_cancel_reservation isoformat film s seats c =
       (Raise (ReservationError
                 [Lit "Requested to cancel "; Int seats; Lit " seats, but only ";
                  Int (reserved_for (key_of isoformat s) c);
                  Lit " reserved in hall "; Int (number h); Lit "."]), c)) ∧
  (seats ≤ reserved_for (key_of isoformat s) c →
     Cinema_cancel_reservation isoformat film s seats c =
       (Ok tt,
        set_reservations
          (<[key_of isoformat s := reserved_for (key_of isoformat s) c - seats]>
             (_reservations c)) c)) ∧
  (capacity h = 100 → _reservations c !! key_of isoformat s = None →
     let c1 := after (Cinema_reserve isoformat film s 50 true c) in
     let c2 := after (Cinema_cancel_reservation isoformat film s 30 c1) in
     let c3 := after (Cinema_cancel_reservation isoformat film s 20 c2) in
     outcome (Cinema_reserve isoformat film s 50 true c) = Ok tt ∧
     outcome (Cinema_cancel_reservation isoformat film s 30 c1) = Ok tt ∧
     reserved_for (key_of isoformat s) c2 = 20 ∧
     Cinema_available_seats isoformat s c2 = Ok 80 ∧
     is_ReservationError
       (outcome (Cinema_cancel_reservation isoformat film s 30 c2)) = true ∧
     after (Cinema_cancel_reservation isoformat film s 30 c2) = c2 ∧
     outcome (Cinema_cancel_reservation isoformat film s 20 c2) = Ok tt ∧
     reserved_for (key_of isoformat s) c3 = 0 ∧
     is_ReservationError
       (outcome (Cinema_cancel_reservation isoformat film s 1 c3)) = true).
Proof.
  intros Hs Hin Hh. split; [|split].
  - intros Hlt. by apply cancel_too_many.
  - intros Hle. by apply (cancel_ok isoformat film s seats c h).
  - intros Hcap Hnone.
    assert (H0 : reserved_for (key_of isoformat s) c = 0).
    { unfold reserved_for. by rewrite Hnone. }
    rewrite (reserve_ok isoformat film s 50 true c h) by (rewrite ?H0; first [done | lia]).
    unfold after, outcome. simpl. rewrite H0. simpl.
    set (c1 := set_reservations _ c).
    assert (H1 : reserved_for (key_of isoformat s) c1 = 50)
      by apply reserved_for_set.
    rewrite (cancel_ok isoformat film s 30 c1 h) by (rewrite ?H1; first [done | lia]).
    simpl. rewrite H1. simpl.
    set (c2 := set_reservations _ c1).
    assert (H2 : reserved_for (key_of isoformat s) c2 = 20)
      by apply reserved_for_set.
    rewrite (cancel_too_many isoformat film s 30 c2 h) by (rewrite ?H2; first [done | lia]).
    rewrite (cancel_ok isoformat film s 20 c2 h) by (rewrite ?H2; first [done | lia]).
    simpl. rewrite H2. simpl.
    set (c3 := set_reservations _ c2).
    assert (H3 : reserved_for (key_of isoformat s) c3 = 0)
      by apply reserved_for_set.
    rewrite (cancel_too_many isoformat film s 1 c3 h) by (rewrite ?H3; first [done | lia]).
    simpl. repeat split; try done.
    unfold Cinema_available_seats. simpl. rewrite Hh, H2, Hcap. done.
Qed.

End Ledger.

(** C5's theorem on the fixture of the tests: one hall of 100 seats, the
    film's one screening, a cancellation of 30 out of 50. *)
Lemma cancel_reservation_checks_witness :
  Cinema_cancel_reservation Datetime.isoformat test_film test_screening 30
    (after (Cinema_reserve Datetime.isoformat test_film test_screening 50 true
              test_cinema)) =
  (Ok tt, mkCinema "Test Cinema" {[ 1 := test_hall ]} {[ test_key := 20 ]}).
Proof.
  refine (eq_trans (proj1 (proj2 (cancel_reservation_checks Datetime.isoformat
    (after (Cinema_reserve Datetime.isoformat test_film test_screening 50 true
              test_cinema))
    test_film test_screening 30 test_hall _ _ _)) _) _).
  - lia.
  - by left.
  - reflexivity.
  - vm_compute. discriminate.
  - vm_compute. reflexivity.
Defined.

(** C5 as stated fails in its example: with 20 seats left reserved,
    cancelling 30 more does not succeed and does not leave 0 reserved; it
    raises [ReservationError] and the entry stays at 20. *)
Lemma cancel_thirty_more_counterexample :
  reserved_for test_key
    (after (Cinema_cancel_reservation Datetime.isoformat test_film test_screening 30
       (after (Cinema_reserve Datetime.isoformat test_film test_screening 50 true
                 test_cinema)))) = 20 ∧
  Cinema_cancel_reservation Datetime.isoformat test_film test_screening 30
    (after (Cinema_cancel_reservation Datetime.isoformat test_film test_screening 30
       (after (Cinema_reserve Datetime.isoformat test_film test_screening 50 true
                 test_cinema)))) =
  (Raise (ReservationError
            [Lit "Requested to cancel "; Int 30; Lit " seats, but only "; Int 20;
             Lit " reserved in hall "; Int 1; Lit "."]),
   mkCinema "Test Cinema" {[ 1 := test_hall ]} {[ test_key := 20 ]}).
Proof. split; vm_compute; reflexivity. Qed.

End CinemaSpec.

(** ** Properties of [save] and [load] *)

Module PersistenceProps.
Import FilmProps CinemaProps.

(** *** Dicts filled by successive assignments *)

Section Assignments.
Context {K V : Type} `{Countable K}.

Lemma foldr_assign_fresh (l : list (K * V)) (m : gmap K V) k v :
  k ∉ l.*1 →
  foldr (λ e m, <[e.1 := e.2]> m) (<[k := v]> m) l =
  <[k := v]> (foldr (λ e m, <[e.1 := e.2]> m) m l).
Proof.
  induction l as [|[k' v'] l IH]; simpl; [done|].
  rewrite not_elem_of_cons. intros [Hne Hk].
  rewrite IH by done. by apply insert_insert_ne.
Qed.

(** With one entry per key, the order of the assignments does not show. *)
Lemma foldl_assign_list_to_map (l : list (K * V)) (m : gmap K V) :
  NoDup l.*1 →
  foldl assign m l = foldr (λ e m, <[e.1 := e.2]> m) m l.
Proof.
  revert m. induction l as [|[k v] l IH]; intros m; simpl; [done|].
  rewrite NoDup_cons. intros [Hk Hl].
  rewrite IH by done. unfold assign at 1. simpl.
  by apply foldr_assign_fresh.
Qed.

Lemma foldl_assign_map_to_list (l : list (K * V)) (m : gmap K V) :
  l ≡ₚ map_to_list m → foldl assign ∅ l = m.
Proof.
  intros Hl.
  assert (NoDup l.*1) as Hnd.
  { rewrite Hl. apply NoDup_fst_map_to_list. }
  rewrite foldl_assign_list_to_map by done.
  change (foldr _ ∅ l) with (list_to_map l : gmap K V).
  rewrite (list_to_map_proper l (map_to_list m)) by done.
  apply list_to_map_to_list.
Qed.

End Assignments.

Lemma halls_by_number_assign (hs : list Hall) :
  halls_by_number hs = foldl assign ∅ (map (λ h, (number h, h)) hs).
Proof.
  unfold halls_by_number. generalize (∅ : gmap Z Hall).
  induction hs as [|h hs IH]; intros m; simpl; [done|]. apply IH.
Qed.

Lemma assign_all_reservations es c :
  _reservations (assign_all es c) = foldl assign (_reservations c) es ∧
  _halls (assign_all es c) = _halls c ∧
  name (assign_all es c) = name c.
Proof.
  unfold assign_all. revert c.
  induction es as [|e es IH]; intros c; simpl; [done|].
  destruct (IH (set_reservations (<[e.1 := e.2]> (_reservations c)) c))
    as (-> & -> & ->). done.
Qed.

(** The halls of a cinema, in any order, give back its dict of halls. *)
Lemma halls_by_number_values c hs :
  halls_keyed c → hs ≡ₚ (map_to_list (_halls c)).*2 →
  halls_by_number hs = _halls c.
Proof.
  intros Hk Hp. rewrite halls_by_number_assign.
  apply foldl_assign_map_to_list.
  rewrite Hp. rewrite <-list_fmap_compose.
  erewrite (list_fmap_ext _ id); [by rewrite list_fmap_id|].
  intros i [k h] Hi. simpl.
  apply list_elem_of_lookup_2, elem_of_map_to_list, Hk in Hi. by subst.
Qed.

(** What [Cinema.__init__] builds is keyed by hall number. *)
Lemma halls_by_number_keyed hs k h :
  halls_by_number hs !! k = Some h → number h = k.
Proof.
  unfold halls_by_number.
  assert (∀ m : gmap Z Hall, (∀ k h, m !! k = Some h → number h = k) →
            ∀ k h, foldl (λ m h, <[number h := h]> m) m hs !! k = Some h →
                   number h = k) as Hgen.
  { induction hs as [|x hs IH]; intros m Hm; simpl; [done|].
    apply IH. intros k' h'. rewrite lookup_insert.
    case_decide; [by intros [= <-] | apply Hm]. }
  apply Hgen. intros k' h'. by rewrite lookup_empty.
Qed.

(** *** Reading back what [save] wrote *)

Lemma load_hall_json h :
  load_hall (hall_json h) =
  if capacity h <=? 0 then
    Raise (ValidationError [Lit "Capacity must be positive"])
  else Ok (raw_of_hall h).
Proof. done. Qed.

Lemma mapM_result_cons {A B} (f : A → result B) x l :
  mapM f (x :: l) =
  match f x with
  | Ok y => match mapM f l with Ok k => Ok (y :: k) | Raise e => Raise e end
  | Raise e => Raise e
  end.
Proof. done. Qed.

Lemma mapM_option_cons {A B} (f : A → option B) x l :
  mapM f (x :: l) =
  match f x with
  | Some y => match mapM f l with Some k => Some (y :: k) | None => None end
  | None => None
  end.
Proof. done. Qed.

Lemma load_halls_json hs :
  mapM load_hall (map hall_json hs) =
  if forallb (λ h, negb (capacity h <=? 0)) hs then Ok (map raw_of_hall hs)
  else Raise (ValidationError [Lit "Capacity must be positive"]).
Proof.
  induction hs as [|h hs IH]; [done|].
  cbn [map forallb]. rewrite mapM_result_cons, load_hall_json, IH.
  destruct (capacity h <=? 0); [done|]. cbn [negb andb].
  by destruct (forallb _ hs).
Qed.

Lemma load_reservations_json es :
  mapM load_reservation (map reservation_json es) = Ok (map raw_of_entry es).
Proof.
  induction es as [|[[h s] r] es IH]; [done|].
  cbn [map]. by rewrite mapM_result_cons, IH.
Qed.

Lemma typed_halls_raw hs : mapM typed_hall (map raw_of_hall hs) = Some hs.
Proof.
  induction hs as [|[n c a] hs IH]; [done|].
  cbn [map]. by rewrite mapM_option_cons, IH.
Qed.

Lemma typed_entries_raw es : mapM typed_entry (map raw_of_entry es) = Some es.
Proof.
  induction es as [|[[h s] r] es IH]; [done|].
  cbn [map]. by rewrite mapM_option_cons, IH.
Qed.

Lemma hashable_raw_halls hs :
  forallb (λ h, hashable (raw_number h)) (map raw_of_hall hs) = true.
Proof. by induction hs. Qed.

(** *** What [json.loads] makes of a file of the form that [save] writes *)

Lemma forallb_permutation {A} (f : A → bool) (l l' : list A) :
  l ≡ₚ l' → forallb f l = forallb f l'.
Proof.
  induction 1 as [|x l l' _ IH|x y l|l l' l'' _ IH1 _ IH2]; simpl.
  - done.
  - by rewrite IH.
  - by rewrite !andb_assoc, (andb_comm (f y)).
  - by rewrite IH1.
Qed.

Lemma scan_halls room hs (rest : result unit) :
  foldr (λ x rest, match scan (S room) x with Ok _ => rest | Raise e => Raise e end)
        rest (map hall_json hs) =
  if forallb ints_within (map hall_json hs) then rest else Raise digits_error.
Proof.
  induction hs as [|h hs IH]; [done|].
  cbn [map foldr forallb]. rewrite IH. simpl.
  destruct (within_digits (number h)); [|done].
  destruct (within_digits (capacity h)); [|done].
  by destruct (within_digits (available_seats h)).
Qed.

Lemma scan_reservations room es (rest : result unit) :
  foldr (λ x rest, match scan (S room) x with Ok _ => rest | Raise e => Raise e end)
        rest (map reservation_json es) =
  if forallb ints_within (map reservation_json es) then rest
  else Raise digits_error.
Proof.
  induction es as [|e es IH]; [done|].
  cbn [map foldr forallb]. rewrite IH. simpl.
  destruct (within_digits e.1.1); [|done].
  by destruct (within_digits e.2).
Qed.

Lemma scan_payload_of room name0 timestamp hs es :
  scan (S (S (S room))) (payload_of name0 timestamp hs es) =
  if ints_within (payload_of name0 timestamp hs es) then Ok tt
  else Raise digits_error.
Proof.
  unfold payload_of.
  cbn [scan foldr snd ints_within forallb andb].
  rewrite scan_halls, scan_reservations.
  destruct (forallb ints_within (map hall_json hs)); [|done].
  by destruct (forallb ints_within (map reservation_json es)).
Qed.

(** A snapshot all of whose integers have at most 4300 digits is read as
    it is; with a longer one, [load] ends in [IOError]. *)
Lemma read_json_payload_of fs path name0 timestamp hs es :
  files fs !! path = Some (Document (payload_of name0 timestamp hs es)) →
  read_json path fs =
  if ints_within (payload_of name0 timestamp hs es) then
    Ok (payload_of name0 timestamp hs es)
  else Raise digits_error.
Proof.
  intros Hfile. unfold read_json. rewrite Hfile.
  change recursion_limit with (S (S (S 997))).
  rewrite scan_payload_of. by destruct (ints_within _).
Qed.

Lemma read_json_document path fs j :
  read_json path fs = Ok j → files fs !! path = Some (Document j).
Proof.
  unfold read_json.
  destruct (files fs !! path) as [[| | | |j']|]; try done.
  destruct (scan recursion_limit j'); [|done]. by intros [= ->].
Qed.

Lemma ints_within_permutation name0 timestamp1 timestamp2 hs hs' es es' :
  hs ≡ₚ hs' → es ≡ₚ es' →
  ints_within (payload_of name0 timestamp1 hs es) =
  ints_within (payload_of name0 timestamp2 hs' es').
Proof.
  intros Hhs Hes. unfold payload_of. cbn [ints_within forallb snd andb].
  rewrite (forallb_permutation _ (map hall_json hs) (map hall_json hs'))
    by (by apply Permutation_map).
  by rewrite (forallb_permutation _ (map reservation_json es)
                (map reservation_json es'))
    by (by apply Permutation_map).
Qed.

(** [load] on a file of the form that [save] writes, whatever the values:
    the cinema described when every capacity is positive, and otherwise the
    [ValidationError] of the [Hall] constructor. *)
Lemma load_payload_of fs path name0 timestamp hs es :
  read_json path fs = Ok (payload_of name0 timestamp hs es) →
  Cinema_load path fs =
  if forallb (λ h, negb (capacity h <=? 0)) hs then
    Loaded (assign_all es (Cinema_init name0 hs))
  else Failed (ValidationError [Lit "Capacity must be positive"]).
Proof.
  intros Hfile. unfold Cinema_load, load_body. rewrite Hfile.
  with_strategy opaque [mapM forallb] simpl.
  rewrite load_halls_json.
  destruct (forallb _ hs); [|done].
  with_strategy opaque [mapM forallb] simpl.
  rewrite hashable_raw_halls.
  with_strategy opaque [mapM forallb] simpl.
  rewrite load_reservations_json.
  unfold typed_cinema.
  with_strategy opaque [mapM forallb] simpl.
  by rewrite typed_halls_raw, typed_entries_raw.
Qed.

(** The cinema described by a snapshot of [c], for any enumeration of its
    two dicts, is [c]. *)
Lemma described_cinema c hs es :
  halls_keyed c →
  hs ≡ₚ (map_to_list (_halls c)).*2 →
  es ≡ₚ map_to_list (_reservations c) →
  assign_all es (Cinema_init (name c) hs) = c.
Proof.
  intros Hk Hhs Hes.
  destruct (assign_all_reservations es (Cinema_init (name c) hs)) as (Hr & Hh & Hn).
  destruct c as [n halls rs]. destruct (assign_all es _) as [n' halls' rs'].
  simpl in *. subst.
  f_equal.
  - by apply (halls_by_number_values (mkCinema n halls rs)).
  - by apply foldl_assign_map_to_list.
Qed.

(** [load] does not depend on the order in which [save] enumerates the
    halls and the ledger. *)
Lemma load_payload_any_order fs path c timestamp hs es :
  halls_keyed c →
  hs ≡ₚ (map_to_list (_halls c)).*2 →
  es ≡ₚ map_to_list (_reservations c) →
  read_json path fs = Ok (payload_of (name c) timestamp hs es) →
  Cinema_load path fs =
  if forallb (λ h, negb (capacity h <=? 0)) hs then Loaded c
  else Failed (ValidationError [Lit "Capacity must be positive"]).
Proof.
  intros Hk Hhs Hes Hfile. rewrite (load_payload_of _ _ _ _ _ _ Hfile).
  by rewrite described_cinema.
Qed.


Lemma positive_capacities c :
  cinema_wf c →
  forallb (λ h, negb (capacity h <=? 0)) (map_to_list (_halls c)).*2 = true.
Proof.
  intros Hwf. apply forallb_forall. intros h Hh%list_elem_of_In.
  apply list_elem_of_fmap in Hh as ([k h'] & -> & Hin). simpl.
  apply elem_of_map_to_list, Hwf in Hin as [_ Hc].
  apply negb_true_iff. by apply Z.leb_gt.
Qed.

Lemma save_unfold c path timestamp fs :
  Cinema_save c path timestamp fs =
  if ints_within (payload timestamp c) then
    match write_failures fs !! path with
    | None => (Ok tt, write path (payload timestamp c) fs)
    | Some OpenFails =>
        (Raise (IOError [Lit "Unable to write cinema data to "; Lit path]), fs)
    | Some WriteFails =>
        (Raise (IOError [Lit "Unable to write cinema data to "; Lit path]),
         leave path NotJSON fs)
    | Some CloseFails =>
        (Raise (IOError [Lit "Unable to write cinema data to "; Lit path]),
         write path (payload timestamp c) fs)
    end
  else
    (Raise (ValueError
              [Lit "Exceeds the limit ("; Int int_max_str_digits;
               Lit " digits) for integer string conversion; use sys.set_int_max_str_digits() to increase the limit"]),
     fs).
Proof.
  unfold Cinema_save, dumps, lift, mbind, M_bind, bind, get, modify, raise.
  destruct (ints_within (payload timestamp c)); [|done].
  by destruct (write_failures fs !! path) as [[| |]|].
Qed.

(** A [save] that returns has written the snapshot, all of whose integers
    [json] can read back. *)
Lemma save_ok c path timestamp fs fs' :
  Cinema_save c path timestamp fs = (Ok tt, fs') →
  fs' = write path (payload timestamp c) fs ∧
  ints_within (payload timestamp c) = true ∧
  write_failures fs !! path = None.
Proof.
  rewrite save_unfold. destruct (ints_within (payload timestamp c)); [|done].
  destruct (write_failures fs !! path) as [[| |]|]; try done.
  by intros [= <-].
Qed.

Lemma read_json_written path timestamp c fs :
  ints_within (payload timestamp c) = true →
  read_json path (write path (payload timestamp c) fs) = Ok (payload timestamp c).
Proof.
  intros Hin. unfold payload in *.
  rewrite (read_json_payload_of _ path (name c) timestamp
             (map snd (map_to_list (_halls c))) (map_to_list (_reservations c))).
  - by rewrite Hin.
  - unfold write, leave. simpl. by rewrite lookup_insert_eq.
Qed.

End PersistenceProps.

(** ** Snapshots: the claims about [save] and [load] *)

Module PersistenceSpec.
Import FilmProps CinemaProps PersistenceProps.

(** C3.  For a cinema whose halls are filed under their own numbers and
    have positive capacities (what the constructors and [add_hall]
    produce), [load] of the file that a successful [save] wrote returns a
    cinema with the same name, the same dict of halls (so for each number
    the same capacity and the same [available_seats], as saved and not
    reset to the capacity) and the same ledger; hence [available_seats]
    answers the same on both, for every screening. *)
Theorem load_save_roundtrip (c : Cinema) (path timestamp : string)
    (fs fs' : FileSystem) :
  cinema_wf c →
  Cinema_save c path timestamp fs = (Ok tt, fs') →
  ∃ c',
    Cinema_load path fs' = Loaded c' ∧
    c' = c ∧
    name c' = name c ∧
    _halls c' = _halls c ∧
    (∀ k h, _halls c !! k = Some h →
       ∃ h', _halls c' !! k = Some h' ∧ number h' = number h ∧
             capacity h' = capacity h ∧ available_seats h' = available_seats h) ∧
    _reservations c' = _reservations c ∧
    (∀ isoformat s,
       Cinema_available_seats isoformat s c' = Cinema_available_seats isoformat s c).
Proof.
  intros Hwf Hsave. exists c.
  split; [|by repeat split; eauto].
  apply save_ok in Hsave as (-> & Hin & _).
  rewrite (load_payload_any_order _ path c timestamp
             (map_to_list (_halls c)).*2 (map_to_list (_reservations c))).
  - by rewrite positive_capacities.
  - intros k h Hh. by apply Hwf.
  - done.
  - done.
  - by apply read_json_written.
Qed.

(** C3's theorem on scenario D: the hall is read back with 50 available
    seats, not 100, and 50 seats remain for the screening. *)
Lemma load_save_roundtrip_witness :
  ∃ c',
    Cinema_load "test_cinema.json"
      (after (Cinema_save half_booked "test_cinema.json"
                "2030-03-17T12:00:00+00:00" no_files)) = Loaded c' ∧
    _halls c' !! 1 = Some (mkHall 1 100 50) ∧
    _reservations c' !! test_key = Some 50 ∧
    Cinema_available_seats Datetime.isoformat test_screening c' = Ok 50.
Proof.
  destruct (load_save_roundtrip half_booked "test_cinema.json"
              "2030-03-17T12:00:00+00:00" no_files
              (after (Cinema_save half_booked "test_cinema.json"
                        "2030-03-17T12:00:00+00:00" no_files)))
    as (c' & Hload & -> & _).
  - intros k h. unfold half_booked. simpl.
    rewrite lookup_singleton. case_decide; [|done].
    intros [= <-]. simpl. split; [done | lia].
  - reflexivity.
  - exists half_booked. split; [exact Hload|]. repeat split; reflexivity.
Defined.



End PersistenceSpec.

(** ** The ledger invariant over sequences of calls *)

Module LedgerInvariant.
Import FilmProps CinemaProps PersistenceProps.

Section Calls.
Context (isoformat : datetime → string).

Lemma reserve_cases film s seats commit c :
  (∃ e, Cinema_reserve isoformat film s seats commit c = (Raise e, c)) ∨
  (∃ h, 0 < seats ∧ _halls c !! hall s = Some h ∧
        seats ≤ capacity h - reserved_for (key_of isoformat s) c ∧
        Cinema_reserve isoformat film s seats commit c =
          (Ok tt,
           if commit then
             set_reservations
               (<[key_of isoformat s := reserved_for (key_of isoformat s) c + seats]>
                  (_reservations c)) c
           else c)).
Proof.
  rewrite reserve_unfold, validate_reservation_request_unfold. simpl.
  destruct (Z.leb_spec seats 0); simpl; [left; by eexists|].
  destruct (bool_decide (s ∈ screenings film)); simpl; [|left; by eexists].
  destruct (_halls c !! hall s) as [h|]; [|left; by eexists].
  destruct (Z.gtb_spec seats (capacity h - reserved_for (key_of isoformat s) c));
    [left; by eexists|].
  right. exists h. repeat split; [done | lia].
Qed.

Lemma cancel_cases film s seats c :
  (∃ e, Cinema_cancel_reservation isoformat film s seats c = (Raise e, c)) ∨
  (∃ h, 0 < seats ∧ _halls c !! hall s = Some h ∧
        seats ≤ reserved_for (key_of isoformat s) c ∧
        Cinema_cancel_reservation isoformat film s seats c =
          (Ok tt,
           set_reservations
             (<[key_of isoformat s := reserved_for (key_of isoformat s) c - seats]>
                (_reservations c)) c)).
Proof.
  rewrite cancel_reservation_unfold, validate_cancellation_request_unfold. simpl.
  destruct (Z.leb_spec seats 0); simpl; [left; by eexists|].
  destruct (bool_decide (s ∈ screenings film)); simpl; [|left; by eexists].
  destruct (_halls c !! hall s) as [h|]; [|left; by eexists].
  destruct (Z.gtb_spec seats (reserved_for (key_of isoformat s) c));
    [left; by eexists|].
  right. exists h. repeat split; [done | lia].
Qed.

(** Under the invariant, the count read for a key is never negative and
    never above the capacity of its hall. *)
Lemma reserved_for_bounds c key h :
  ledger_ok c → _halls c !! key.1 = Some h →
  0 ≤ reserved_for key c ∧ (0 < capacity h → reserved_for key c ≤ capacity h).
Proof.
  intros Hok Hh. unfold reserved_for.
  destruct (_reservations c !! key) as [r|] eqn:Hr; simpl; [|lia].
  destruct (Hok _ _ Hr) as (h' & Hh' & Hb). simplify_eq. lia.
Qed.

(** Setting one entry within the capacity of its registered hall keeps the
    invariant. *)
Lemma ledger_ok_set c key v h :
  ledger_ok c → _halls c !! key.1 = Some h → 0 ≤ v ≤ capacity h →
  ledger_ok (set_reservations (<[key := v]> (_reservations c)) c).
Proof.
  intros Hok Hh Hv key' r. simpl. rewrite lookup_insert.
  case_decide as Hk; [|by apply Hok].
  intros [= <-]. subst key'. by exists h.
Qed.

Lemma reserve_keeps_ledger_ok film s seats commit c :
  ledger_ok c →
  ledger_ok (after (Cinema_reserve isoformat film s seats commit c)).
Proof.
  intros Hok.
  destruct (reserve_cases film s seats commit c)
    as [[e ->]|(h & Hs & Hh & Hle & ->)]; [done|].
  unfold after. simpl. destruct commit; [|done].
  pose proof (reserved_for_bounds c (key_of isoformat s) h Hok Hh) as [H0 _].
  apply (ledger_ok_set c _ _ h); [done | done | lia].
Qed.

Lemma cancel_keeps_ledger_ok film s seats c :
  ledger_ok c →
  ledger_ok (after (Cinema_cancel_reservation isoformat film s seats c)).
Proof.
  intros Hok.
  destruct (cancel_cases film s seats c)
    as [[e ->]|(h & Hs & Hh & Hle & ->)]; [done|].
  unfold after. simpl.
  assert (is_Some (_reservations c !! key_of isoformat s)) as [r Hr].
  { unfold reserved_for in Hle.
    destruct (_reservations c !! key_of isoformat s); [by eexists | simpl in Hle; lia]. }
  destruct (Hok _ _ Hr) as (h' & Hh' & Hb). simpl in Hh'. simplify_eq.
  unfold reserved_for in *. rewrite Hr in *. simpl in *.
  apply (ledger_ok_set c _ _ h); [done | done | lia].
Qed.

(** Reservations and cancellations leave the halls alone. *)
Lemma reserve_halls film s seats commit c :
  _halls (after (Cinema_reserve isoformat film s seats commit c)) = _halls c.
Proof.
  destruct (reserve_cases film s seats commit c)
    as [[e ->]|(h & _ & _ & _ & ->)]; [done|]. by destruct commit.
Qed.

Lemma cancel_halls film s seats c :
  _halls (after (Cinema_cancel_reservation isoformat film s seats c)) = _halls c.
Proof.
  destruct (cancel_cases film s seats c)
    as [[e ->]|(h & _ & _ & _ & ->)]; done.
Qed.

End Calls.

Lemma add_hall_keeps_keyed h overwrite c :
  halls_keyed c → halls_keyed (after (Cinema_add_hall h overwrite c)).
Proof.
  intros Hk. rewrite add_hall_unfold. destruct (_ && _); [done|].
  intros k h'. simpl. rewrite lookup_insert.
  case_decide; [by intros [= <-] | apply Hk].
Qed.

Lemma remove_hall_keeps_keyed h c :
  halls_keyed c → halls_keyed (after (Cinema_remove_hall h c)).
Proof.
  intros Hk. rewrite remove_hall_unfold. destruct (bool_decide _); [|done].
  intros k h'. simpl. rewrite lookup_delete_Some. intros [_ ?]. by apply Hk.
Qed.

(** A hall registered without [overwrite] is new, so that no ledger entry
    names it. *)
Lemma add_hall_keeps_ledger_ok h c :
  ledger_ok c → ledger_ok (after (Cinema_add_hall h false c)).
Proof.
  intros Hok. rewrite add_hall_unfold. simpl.
  destruct (bool_decide (is_Some (_halls c !! number h))) eqn:Hb; [done|].
  apply bool_decide_eq_false in Hb.
  intros key r Hr. simpl in *.
  destruct (Hok _ _ Hr) as (h' & Hh' & Hbounds).
  exists h'. split; [|done]. rewrite lookup_insert_ne; [done|].
  intros Heq. apply Hb. rewrite Heq. by eexists.
Qed.

Lemma remove_hall_keeps_ledger_ok h c :
  (∀ key reserved, _reservations c !! key = Some reserved → key.1 ≠ number h) →
  ledger_ok c → ledger_ok (after (Cinema_remove_hall h c)).
Proof.
  intros Hfree Hok. rewrite remove_hall_unfold.
  destruct (bool_decide _); [|done].
  intros key r Hr. simpl in *.
  destruct (Hok _ _ Hr) as (h' & Hh' & Hbounds).
  exists h'. split; [|done]. rewrite lookup_delete_ne; [done|].
  intros Heq. by apply (Hfree _ _ Hr).
Qed.

Lemma save_keeps_snapshots_saved c path timestamp fs :
  halls_keyed c → ledger_ok c → snapshots_saved fs →
  snapshots_saved (after (Cinema_save c path timestamp fs)).
Proof.
  intros Hk Hok Hfs. rewrite save_unfold.
  destruct (ints_within (payload timestamp c)); [|done].
  destruct (write_failures fs !! path) as [[| |]|]; [done| | |];
    intros p j; unfold after, write, leave; simpl; rewrite lookup_insert;
    (case_decide; [|by apply Hfs]); try done;
    intros [= <-]; by exists c, timestamp.
Qed.

(** [load] returns a cinema only from a file that holds a document. *)
Lemma load_loaded_document path fs c :
  Cinema_load path fs = Loaded c → ∃ j, read_json path fs = Ok j.
Proof.
  unfold Cinema_load, load_body.
  destruct (read_json path fs) as [j|e]; [by exists j|].
  simpl. by destruct (caught_by_load e).
Qed.

(** From a snapshot that [save] wrote, [load] returns the cinema saved. *)
Lemma load_saved path fs c :
  snapshots_saved fs → Cinema_load path fs = Loaded c →
  halls_keyed c ∧ ledger_ok c.
Proof.
  intros Hfs Hload.
  destruct (load_loaded_document _ _ _ Hload) as [j Hj].
  destruct (Hfs _ _ (read_json_document _ _ _ Hj)) as (c0 & timestamp & -> & Hk & Hok).
  rewrite (load_payload_any_order fs path c0 timestamp
             (map_to_list (_halls c0)).*2 (map_to_list (_reservations c0)))
    in Hload by done.
  destruct (forallb _ _); [|done]. by injection Hload as <-.
Qed.

Lemma perform_keeps_world_ok isoformat o w :
  world_ok w → ledger_safe o w → world_ok (perform isoformat o w).
Proof.
  intros (Hk & Hok & Hfs) Hsafe. destruct o; simpl in *.
  - subst. split; [by apply add_hall_keeps_keyed|].
    split; [by apply add_hall_keeps_ledger_ok | done].
  - split; [by apply remove_hall_keeps_keyed|].
    split; [by apply remove_hall_keeps_ledger_ok | done].
  - split; [|split; [by apply reserve_keeps_ledger_ok | done]].
    intros k h. simpl. rewrite reserve_halls. apply Hk.
  - split; [|split; [by apply cancel_keeps_ledger_ok | done]].
    intros k h. simpl. rewrite cancel_halls. apply Hk.
  - split; [done|]. split; [done|]. by apply save_keeps_snapshots_saved.
  - destruct (Cinema_load file_path (the_files w)) as [c| |] eqn:Hload;
      [|by repeat split..].
    destruct (load_saved _ _ _ Hfs Hload). by repeat split.
Qed.

Lemma fresh_world_ok name0 halls fs0 :
  no_snapshots fs0 → world_ok (mkWorld (Cinema_init name0 halls) fs0).
Proof.
  intros Hno. split; [|split].
  - intros k h. apply halls_by_number_keyed.
  - intros key r. simpl. by rewrite lookup_empty.
  - intros path j Hj. by destruct (Hno path j).
Qed.

Lemma reachable_world_ok isoformat w0 w :
  world_ok w0 → reachable isoformat ledger_safe w0 w → world_ok w.
Proof.
  intros H0. induction 1 as [|o w _ IH Hsafe]; [done|].
  by apply perform_keeps_world_ok.
Qed.


End LedgerInvariant.

(** ** Well-formed cinemas: what every sequence of calls maintains *)

Module WellFormed.
Import FilmProps CinemaProps PersistenceProps LedgerInvariant.

Lemma mapM_result_ok {A B} (f : A → result B) l k :
  mapM f l = Ok k → Forall2 (λ x y, f x = Ok y) l k.
Proof.
  revert k. induction l as [|x l IH]; intros k.
  - intros [= <-]. constructor.
  - rewrite mapM_result_cons.
    destruct (f x) as [y|] eqn:Hx; [|done].
    destruct (mapM f l) as [k'|]; [|done].
    intros [= <-]. constructor; [done | by apply IH].
Qed.

Lemma load_hall_ok h_dict rh :
  load_hall h_dict = Ok rh → le_zero (raw_capacity rh) = Ok false.
Proof.
  unfold load_hall.
  destruct (subscript h_dict "number") as [n|]; [|done]. simpl.
  destruct (subscript h_dict "capacity") as [c|]; [|done]. simpl.
  destruct (le_zero c) as [[|]|] eqn:Hc; try done. simpl.
  destruct (subscript h_dict "available_seats") as [a|]; [|done]. simpl.
  by intros [= <-].
Qed.

Lemma load_body_capacities path fs r :
  load_body path fs = Ok r →
  Forall (λ rh, le_zero (raw_capacity rh) = Ok false) (raw_halls r).
Proof.
  unfold load_body.
  destruct (read_json path fs) as [data|]; [|done]. simpl.
  destruct (subscript data "halls") as [hj|]; [|done]. simpl.
  destruct (iterate hj) as [h_dicts|]; [|done]. simpl.
  destruct (mapM load_hall h_dicts) as [halls|] eqn:Hm; [|done]. simpl.
  destruct (subscript data "meta") as [meta|]; [|done]. simpl.
  destruct (subscript meta "name") as [nm|]; [|done]. simpl.
  destruct (negb _); [done|].
  destruct (get_default data "reservations" (JArr [])) as [rs|]; [|done]. simpl.
  destruct (iterate rs) as [recs|]; [|done]. simpl.
  destruct (mapM load_reservation recs) as [entries|]; [|done]. simpl.
  intros [= <-]. simpl.
  apply mapM_result_ok in Hm.
  induction Hm as [|x y l k Hxy _ IH]; constructor; [|done].
  by eapply load_hall_ok.
Qed.

Lemma halls_by_number_elem hs k h :
  halls_by_number hs !! k = Some h → h ∈ hs.
Proof.
  unfold halls_by_number.
  assert (∀ m : gmap Z Hall,
            foldl (λ m h, <[number h := h]> m) m hs !! k = Some h →
            h ∈ hs ∨ m !! k = Some h) as Hgen.
  { induction hs as [|x hs IH]; intros m; simpl; [by right|].
    intros [Hin|Hm]%IH; [left; by right|].
    rewrite lookup_insert in Hm. case_decide; [|by right].
    injection Hm as <-. left. by left. }
  intros [?|Hm]%Hgen; [done|]. by rewrite lookup_empty in Hm.
Qed.

(** Whatever the file, a cinema that [load] returns is well formed: its
    halls went through the test of the [Hall] constructor and were filed by
    [Cinema.__init__]. *)
Lemma load_wf path fs c : Cinema_load path fs = Loaded c → cinema_wf c.
Proof.
  unfold Cinema_load.
  destruct (load_body path fs) as [r|e] eqn:Hbody; [|by destruct (caught_by_load e)].
  destruct (typed_cinema r) as [c'|] eqn:Htyped; [|done].
  intros [= ->]. apply load_body_capacities in Hbody.
  unfold typed_cinema in Htyped.
  destruct (raw_name r) as [| | | |n| |]; try done.
  destruct (mapM typed_hall (raw_halls r)) as [hs|] eqn:Hhs; [|done].
  destruct (mapM typed_entry (raw_reservations r)) as [es|]; [|done].
  simpl in Htyped. injection Htyped as <-.
  intros k h. destruct (assign_all_reservations es (Cinema_init n hs)) as (_ & -> & _).
  simpl. intros Hh. split; [by eapply halls_by_number_keyed|].
  apply halls_by_number_elem in Hh.
  apply mapM_Some in Hhs.
  apply list_elem_of_lookup in Hh as [i Hi].
  destruct (Forall2_lookup_r _ _ _ _ _ Hhs Hi) as (rh & Hrh & Hty).
  rewrite Forall_forall in Hbody.
  specialize (Hbody rh (list_elem_of_lookup_2 _ _ _ Hrh)).
  unfold typed_hall in Hty.
  destruct (raw_number rh); try done.
  destruct (raw_capacity rh); try done.
  destruct (raw_available_seats rh); try done.
  injection Hty as <-. simpl in *.
  injection Hbody as Hle. by apply Z.leb_gt.
Qed.

Lemma perform_keeps_wf isoformat o w :
  cinema_wf (the_cinema w) → halls_constructed o w →
  cinema_wf (the_cinema (perform isoformat o w)).
Proof.
  intros Hwf Hc. destruct o; simpl in *.
  - rewrite add_hall_unfold. destruct (_ && _); [done|].
    intros k h'. simpl. rewrite lookup_insert.
    case_decide; [by intros [= <-] | apply Hwf].
  - rewrite remove_hall_unfold. destruct (bool_decide _); [|done].
    intros k h'. simpl. rewrite lookup_delete_Some. intros [_ ?]. by apply Hwf.
  - intros k h. rewrite reserve_halls. apply Hwf.
  - intros k h. rewrite cancel_halls. apply Hwf.
  - done.
  - destruct (Cinema_load file_path (the_files w)) eqn:Hload; [|done..].
    simpl. by eapply load_wf.
Qed.

(** Every cinema reached by the public operations, [overwrite] and [load]
    of any file included, from a cinema constructed over halls built by
    [Hall(...)], is well formed. *)
Lemma reachable_wf isoformat name0 halls fs0 w :
  Forall (λ h, 0 < capacity h) halls →
  reachable isoformat halls_constructed (mkWorld (Cinema_init name0 halls) fs0) w →
  cinema_wf (the_cinema w).
Proof.
  intros Hhalls. induction 1 as [|o w _ IH Hc].
  - intros k h Hh. simpl in Hh. split; [by eapply halls_by_number_keyed|].
    apply halls_by_number_elem in Hh. rewrite Forall_forall in Hhalls. by apply Hhalls.
  - by apply perform_keeps_wf.
Qed.

End WellFormed.

(** ** The ledger invariant: the claim *)

Module LedgerSpec.
Import FilmProps CinemaProps PersistenceProps LedgerInvariant.






End LedgerSpec.

(** ** Further properties of [Film] and [ScreeningTime] *)

Module FilmExtra.
Import FilmProps.

Lemma film_post_init_ok f :
  Film_post_init f = Ok tt ↔
  title f ≠ EmptyString ∧ rating f ∈ accepted_ratings ∧
  MIN_DURATION ≤ duration f ≤ MAX_DURATION.
Proof.
  unfold Film_post_init, accepted_ratings, MIN_DURATION, MAX_DURATION.
  destruct (bool_decide (title f = EmptyString)) eqn:Ht.
  { apply bool_decide_eq_true in Ht. split; [done | by intros [? _]]. }
  apply bool_decide_eq_false in Ht.
  destruct (Z.leb_spec (duration f) 0); [split; [done | lia]|].
  destruct (bool_decide (rating f = EmptyString)) eqn:Hr.
  { apply bool_decide_eq_true in Hr. split; [done|]. intros (_ & Hin & _).
    rewrite Hr in Hin. exfalso. revert Hin. rewrite !elem_of_cons, elem_of_nil.
    intros [H'|[H'|[H'|[H'|[H'|[]]]]]]; discriminate H'. }
  destruct (bool_decide (rating f ∈ _)) eqn:Hin; simpl.
  2:{ apply bool_decide_eq_false in Hin. split; [done | by intros (_ & ? & _)]. }
  apply bool_decide_eq_true in Hin.
  destruct (Z.ltb_spec (duration f) 1); [lia|].
  destruct (Z.gtb_spec (duration f) 960); simpl; [split; [done | lia]|].
  split; [|done]. intros _. repeat split; [done | done | lia | lia].
Qed.

(** X1.  [Film(title, duration, rating)] succeeds exactly when the title is
    not empty, the rating is one of G, PG, PG-13, R, NC-17 and the duration
    is between 1 and 960 minutes; the film then has no screening and no
    promotion.  Every failure is a [ValidationError]; the message about
    the range of the duration is only ever raised for a duration above
    960, since a duration below 1 is caught by the earlier test. *)
Theorem film_constructor (title0 : string) (duration0 : Z) (rating0 : string) :
  (title0 ≠ EmptyString → rating0 ∈ accepted_ratings →
   MIN_DURATION ≤ duration0 ≤ MAX_DURATION →
   Film_init title0 duration0 rating0 = Ok (mkFilm title0 duration0 rating0 [] ∅)) ∧
  (∀ f, Film_init title0 duration0 rating0 = Ok f →
     f = mkFilm title0 duration0 rating0 [] ∅ ∧
     title0 ≠ EmptyString ∧ rating0 ∈ accepted_ratings ∧
     MIN_DURATION ≤ duration0 ≤ MAX_DURATION) ∧
  (∀ e, Film_init title0 duration0 rating0 = Raise e → ∃ m, e = ValidationError m) ∧
  (title0 ≠ EmptyString → duration0 ≤ 0 →
     Film_init title0 duration0 rating0 =
       Raise (ValidationError [Lit "Duration must be a positive integer"])) ∧
  (Film_init title0 duration0 rating0 =
     Raise (ValidationError [Lit "duration must be between "; Int MIN_DURATION;
                             Lit " and "; Int MAX_DURATION; Lit " minutes"]) →
   MAX_DURATION < duration0).
Proof.
  pose proof (film_post_init_ok (mkFilm title0 duration0 rating0 [] ∅)) as Hok.
  simpl in Hok. unfold Film_init.
  split; [|split; [|split; [|split]]].
  - intros Ht Hr Hd. by rewrite (proj2 Hok).
  - intros f. destruct (Film_post_init _) as [[]|e] eqn:Hp; [|done].
    intros [= <-]. split; [done|]. by apply Hok.
  - intros e. unfold Film_post_init. simpl.
    repeat case_match; try done; simplify_eq; intros [= <-]; by eexists.
  - intros Ht Hd. unfold Film_post_init. simpl.
    rewrite bool_decide_eq_false_2 by done.
    by rewrite (proj2 (Z.leb_le _ _) Hd).
  - unfold Film_post_init, MIN_DURATION, MAX_DURATION. simpl.
    destruct (bool_decide (title0 = EmptyString)); [done|].
    destruct (Z.leb_spec duration0 0); [done|].
    destruct (bool_decide (rating0 = EmptyString)); [done|].
    destruct (negb _); [done|].
    destruct (Z.ltb_spec duration0 1); [lia|].
    destruct (Z.gtb_spec duration0 960); simpl; [lia | done].
Qed.

(** *** [upcoming_screenings] *)

Lemma upcoming_elem now f s :
  s ∈ Film_upcoming_screenings now f ↔ s ∈ screenings f ∧ now < start s.
Proof. unfold Film_upcoming_screenings. rewrite list_elem_of_filter. tauto. Qed.

Lemma filter_none {A} (P : A → Prop) `{∀ x, Decision (P x)} (l : list A) :
  Forall (λ x, ¬ P x) l → filter P l = [].
Proof.
  induction 1 as [|x l Hx _ IH]; [done|]. by rewrite filter_cons_False.
Qed.

Lemma filter_all {A} (P : A → Prop) `{∀ x, Decision (P x)} (l : list A) :
  Forall P l → filter P l = l.
Proof.
  induction 1 as [|x l Hx _ IH]; [done|]. rewrite filter_cons_True by done.
  by rewrite IH.
Qed.

Lemma chronological_past_then_upcoming now l :
  chronological l →
  l = filter (λ s, start s ≤ now) l ++ filter (λ s, now < start s) l.
Proof.
  unfold chronological. induction 1 as [|x l Hl IH Hx]; [done|].
  rewrite !filter_cons. destruct (decide (start x ≤ now)) as [Hle|Hgt].
  - rewrite decide_False by lia. simpl. by rewrite <-IH.
  - rewrite decide_True by lia.
    assert (filter (λ s, start s ≤ now) l = []) as ->.
    { apply filter_none. eapply Forall_impl; [exact Hx|].
      simpl. intros; lia. }
    simpl. f_equal.
    symmetry. apply filter_all. eapply Forall_impl; [exact Hx|].
    simpl. intros; lia.
Qed.

(** X2.  [upcoming_screenings(now)] returns, in the order of the list and
    without changing it, exactly the screenings that start after [now] (one
    that starts at [now] is left out); a later [now] returns a subsequence
    of what an earlier one returns; and when the list is chronological, as
    [add_screening] keeps it, the result is the tail of the list that
    follows the screenings already started. *)
Theorem upcoming_screenings_spec (now : datetime) (f : Film) :
  (∀ s, s ∈ Film_upcoming_screenings now f ↔ s ∈ screenings f ∧ now < start s) ∧
  Film_upcoming_screenings now f `sublist_of` screenings f ∧
  (∀ now', now ≤ now' →
     Film_upcoming_screenings now' f `sublist_of` Film_upcoming_screenings now f) ∧
  (chronological (screenings f) →
     chronological (Film_upcoming_screenings now f) ∧
     ∃ started, screenings f = started ++ Film_upcoming_screenings now f ∧
                Forall (λ s, start s ≤ now) started).
Proof.
  split; [|split; [|split]].
  - intros s. apply upcoming_elem.
  - apply sublist_filter.
  - intros now' Hle. unfold Film_upcoming_screenings.
    induction (screenings f) as [|x l IH]; [done|].
    rewrite !filter_cons.
    destruct (decide (now' < start x)).
    + rewrite decide_True by lia. by apply sublist_skip.
    + destruct (decide (now < start x)); [by apply sublist_cons | done].
  - intros Hc. split.
    + eapply chronological_sublist; [apply sublist_filter | done].
    + exists (filter (λ s, start s ≤ now) (screenings f)). split.
      * by apply chronological_past_then_upcoming.
      * apply Forall_forall. intros s Hs. by apply list_elem_of_filter in Hs as [? _].
Qed.

(** X3.  A screening that the [ScreeningTime] constructor accepted at time
    [now] has the given start and hall, starts after [now] in a hall of
    positive number, and, once in a film, is among its upcoming screenings
    at every instant up to [now]. *)
Theorem constructed_screening_upcoming (now start0 hall0 : Z) (s : ScreeningTime)
    (f : Film) (t : datetime) :
  ScreeningTime_init now start0 hall0 = Ok s →
  s ∈ screenings f →
  t ≤ now →
  s = mkScreeningTime start0 hall0 ∧ now < start0 ∧ 0 < hall0 ∧
  s ∈ Film_upcoming_screenings t f.
Proof.
  unfold ScreeningTime_init.
  destruct (Z.leb_spec start0 now); [done|].
  destruct (Z.leb_spec hall0 0); [done|].
  intros [= <-] Hin Ht. repeat split; [done | done|].
  apply upcoming_elem. simpl. split; [done | lia].
Qed.

Lemma constructed_screening_upcoming_witness :
  test_screening = mkScreeningTime 1900000000000000 1 ∧
  1800000000000000 < 1900000000000000 ∧ 0 < 1 ∧
  test_screening ∈ Film_upcoming_screenings 1700000000000000 test_film.
Proof.
  apply (constructed_screening_upcoming 1800000000000000 1900000000000000 1
           test_screening test_film 1700000000000000).
  - reflexivity.
  - by left.
  - lia.
Defined.

(** *** The invariant of reachable films, in full *)

Lemma film_call_keeps_header o f :
  title (after (film_call o f)) = title f ∧
  duration (after (film_call o f)) = duration f ∧
  rating (after (film_call o f)) = rating f.
Proof.
  destruct o as [s|s|now s p|s]; simpl.
  - by destruct (add_screening_outcomes s f) as [-> | ->].
  - rewrite remove_screening_unfold. by destruct (bool_decide _).
  - rewrite apply_promotion_unfold. by repeat (destruct (_ : bool); simpl).
  - rewrite remove_promotion_unfold. by repeat (destruct (_ : bool); simpl).
Qed.

Lemma film_reachable_header f :
  film_reachable f →
  title f ≠ EmptyString ∧ rating f ∈ accepted_ratings ∧
  MIN_DURATION ≤ duration f ≤ MAX_DURATION.
Proof.
  induction 1 as [t d r f Hinit|o f _ IH].
  - unfold Film_init in Hinit.
    destruct (Film_post_init _) as [[]|e] eqn:Hp; [|done].
    injection Hinit as <-. by apply film_post_init_ok in Hp.
  - by destruct (film_call_keeps_header o f) as (-> & -> & ->).
Qed.

Lemma not_overlapping_apart d a b :
  0 < d → hall a = hall b → ¬ overlapping d a b → apart d a b.
Proof.
  intros Hd Hh Hno. unfold apart, ends in *.
  pose proof (timedelta_minutes_pos d Hd).
  destruct (Z.le_gt_cases (start a + timedelta_minutes d) (start b)); [by left|].
  destruct (Z.le_gt_cases (start b + timedelta_minutes d) (start a)); [by right|].
  destruct Hno. split; [done|]. exists (Z.max (start a) (start b)). unfold ends. lia.
Qed.

(** X4.  Every film that the constructor builds and the four mutating
    methods ([add_screening], [remove_screening], [apply_promotion],
    [remove_promotion]) transform, failed calls included, has a title, an
    accepted rating and a duration of 1 to 960 minutes; its screenings are
    pairwise different and in chronological order; and two different
    screenings of one hall never run at the same time: one ends before or
    when the other starts. *)
Theorem film_reachable_invariants (f : Film) :
  film_reachable f →
  title f ≠ EmptyString ∧ rating f ∈ accepted_ratings ∧
  MIN_DURATION ≤ duration f ≤ MAX_DURATION ∧
  NoDup (screenings f) ∧
  chronological (screenings f) ∧
  (∀ a b, a ∈ screenings f → b ∈ screenings f → a ≠ b → hall a = hall b →
     apart (duration f) a b).
Proof.
  intros Hr. destruct (film_reachable_header f Hr) as (Ht & Hrt & Hd).
  destruct (film_reachable_inv f Hr) as [Hpos Hnd Hc Hcf].
  repeat split; try done; try apply Hd.
  intros a b Ha Hb Hne Hh. apply not_overlapping_apart; [done | done|].
  by apply Hcf.
Qed.

Lemma grown_film_reachable : film_reachable grown_film.
Proof.
  unfold grown_film. repeat apply film_after.
  by apply (film_fresh "Test Film" 120 "PG-13").
Qed.

Lemma film_reachable_invariants_witness :
  screenings grown_film = [test_screening; mkScreeningTime 1900010800000000 1] ∧
  NoDup (screenings grown_film) ∧
  apart 120 test_screening (mkScreeningTime 1900010800000000 1).
Proof.
  destruct (film_reachable_invariants grown_film grown_film_reachable)
    as (_ & _ & _ & Hnd & _ & Hapart).
  split; [reflexivity|]. split; [exact Hnd|].
  apply (Hapart test_screening (mkScreeningTime 1900010800000000 1)).
  - by left.
  - right. by left.
  - discriminate.
  - reflexivity.
Defined.

(** *** Adding, then removing *)

Lemma list_remove_head_ne x y l :
  y ≠ x → list_remove x (y :: l) = y :: list_remove x l.
Proof. intros. simpl. by rewrite bool_decide_eq_false_2. Qed.

Lemma list_remove_head x l : list_remove x (x :: l) = l.
Proof. simpl. by rewrite bool_decide_eq_true_2. Qed.

Lemma sort_by_start_snoc_remove s l :
  chronological l → s ∉ l →
  list_remove s (sort_by_start (l ++ [s])) = l.
Proof.
  unfold chronological. induction 1 as [|x l Hl IH Hx]; intros Hs.
  - apply list_remove_head.
  - apply not_elem_of_cons in Hs as [Hne Hs]. specialize (IH Hs).
    change (sort_by_start ((x :: l) ++ [s]))
      with (insert_by_start x (sort_by_start (l ++ [s]))).
    assert (HL : sort_by_start (l ++ [s]) ≡ₚ s :: l).
    { by rewrite sort_by_start_perm, Permutation_app_comm. }
    destruct (sort_by_start (l ++ [s])) as [|y L'].
    { by apply Permutation_nil_cons in HL. }
    cbn [insert_by_start].
    destruct (Z.leb_spec (start x) (start y)) as [Hxy|Hxy].
    + rewrite list_remove_head_ne by done. by rewrite IH.
    + assert (y ∈ s :: l) as Hy by (rewrite <-HL; by left).
      apply elem_of_cons in Hy as [->|Hy].
      2:{ rewrite Forall_forall in Hx. specialize (Hx y Hy). simpl in Hx. lia. }
      rewrite list_remove_head in *. subst L'.
      by apply insert_by_start_head.
Qed.

(** X5.  On a film whose list is chronological, a successful
    [add_screening(s)] followed by [remove_screening(s)] succeeds and gives
    back the film as it was, list order included. *)
Theorem add_then_remove_screening (f : Film) (s : ScreeningTime) (f1 : Film) :
  chronological (screenings f) →
  Film_add_screening s f = (Ok tt, f1) →
  Film_remove_screening s f1 = (Ok tt, f).
Proof.
  intros Hc Hadd. assert (Hperm : screenings f1 ≡ₚ s :: screenings f).
  { pose proof Hadd as (_ & _ & ->)%add_screening_ok. simpl.
    by rewrite sort_by_start_perm, Permutation_app_comm. }
  apply add_screening_ok in Hadd as (Hs & _ & ->).
  rewrite remove_screening_unfold. simpl in *.
  rewrite bool_decide_eq_true_2 by (rewrite Hperm; by left).
  rewrite sort_by_start_snoc_remove by done. by destruct f.
Qed.

Lemma add_then_remove_screening_witness :
  Film_remove_screening (mkScreeningTime 1900003600000000 2)
    (after (Film_add_screening (mkScreeningTime 1900003600000000 2) grown_film))
  = (Ok tt, grown_film).
Proof.
  apply add_then_remove_screening.
  - destruct (film_reachable_inv grown_film grown_film_reachable) as [_ _ Hc _].
    exact Hc.
  - vm_compute. reflexivity.
Defined.

(** X6.  [remove_screening(s)] raises [ValidationError] and changes
    nothing when [s] is not in the list.  Otherwise it succeeds and takes
    out one occurrence of [s]: the old list is the new one with [s] put
    back, the other screenings keep their order, and the promotions are
    untouched.  In a list without repeats a second removal of [s] raises
    [ValidationError]. *)
Theorem remove_screening_spec (f : Film) (s : ScreeningTime) :
  (s ∉ screenings f →
     Film_remove_screening s f =
       (Raise (ValidationError [Lit "Screening does not exist"]), f)) ∧
  (s ∈ screenings f →
     ∃ f', Film_remove_screening s f = (Ok tt, f') ∧
           screenings f ≡ₚ s :: screenings f' ∧
           screenings f' `sublist_of` screenings f ∧
           S (length (screenings f')) = length (screenings f) ∧
           _promotions f' = _promotions f ∧
           (NoDup (screenings f) →
              Film_remove_screening s f' =
                (Raise (ValidationError [Lit "Screening does not exist"]), f'))).
Proof.
  rewrite remove_screening_unfold. split.
  - intros Hs. by rewrite bool_decide_eq_false_2.
  - intros Hs. rewrite bool_decide_eq_true_2 by done.
    eexists. split; [done|]. simpl.
    assert (Hperm : screenings f ≡ₚ s :: list_remove s (screenings f)).
    { revert Hs. induction (screenings f) as [|y l IH]; [by intros ?%elem_of_nil|].
      simpl. destruct (bool_decide (y = s)) eqn:Hy.
      - by apply bool_decide_eq_true in Hy as ->.
      - apply bool_decide_eq_false in Hy. intros [->|Hin]%elem_of_cons; [done|].
        rewrite (IH Hin) at 1. apply Permutation_swap. }
    split; [done|]. split; [apply list_remove_sublist|].
    split; [by rewrite (Permutation_length Hperm)|]. split; [done|].
    intros Hnd. rewrite remove_screening_unfold. simpl.
    by rewrite bool_decide_eq_false_2 by by apply list_remove_not_in.
Qed.

(** *** Promotions *)

(** X7.  [apply_promotion(s, p)] succeeds exactly when [s] is in the list,
    carries no promotion yet, and [p.is_valid()] holds at the time of the
    call (a promotion that expires at that very instant is still
    accepted).  It then records [p] for [s] alone: [get_promotion(s)]
    returns [p], the promotions of the other screenings and the list are
    as before.  Every failure is a [ValueError] and changes nothing. *)
Theorem apply_promotion_spec (now : datetime) (s : ScreeningTime)
    (p : CinemaPromotion) (f : Film) :
  (outcome (Film_apply_promotion now s p f) = Ok tt ↔
     s ∈ screenings f ∧ _promotions f !! s = None ∧
     CinemaPromotion_is_valid now p = true) ∧
  (outcome (Film_apply_promotion now s p f) = Ok tt →
     after (Film_apply_promotion now s p f) =
       set_promotions (<[s := p]> (_promotions f)) f ∧
     Film_get_promotion s (after (Film_apply_promotion now s p f)) =
       (Ok (Some p), after (Film_apply_promotion now s p f)) ∧
     (∀ s', s' ≠ s →
        _promotions (after (Film_apply_promotion now s p f)) !! s' =
          _promotions f !! s')) ∧
  (∀ e, outcome (Film_apply_promotion now s p f) = Raise e →
     (∃ m, e = ValueError m) ∧ after (Film_apply_promotion now s p f) = f) ∧
  (expires_at p = now → CinemaPromotion_is_valid now p = true).
Proof.
  assert (Hedge : expires_at p = now → CinemaPromotion_is_valid now p = true).
  { intros Heq. unfold CinemaPromotion_is_valid. rewrite Heq. apply Z.leb_refl. }
  rewrite apply_promotion_unfold. unfold outcome, after, CinemaPromotion_is_valid in *.
  destruct (bool_decide (s ∈ screenings f)) eqn:Hin; simpl.
  2:{ apply bool_decide_eq_false in Hin.
      split; [|split; [|split]]; [| done | | done].
      - split; [done | by intros (? & _)].
      - intros e [= <-]. split; [by eexists | done]. }
  apply bool_decide_eq_true in Hin.
  destruct (bool_decide (is_Some (_promotions f !! s))) eqn:Hsome; simpl.
  { apply bool_decide_eq_true in Hsome as [q Hq].
    split; [|split; [|split]]; [| done | | done].
    - split; [done|]. intros (_ & Hnone & _). congruence.
    - intros e [= <-]. split; [by eexists | done]. }
  apply bool_decide_eq_false in Hsome.
  assert (_promotions f !! s = None) as Hnone.
  { destruct (_promotions f !! s) eqn:E; [|done]. destruct Hsome. by eexists. }
  destruct (Z.ltb_spec (expires_at p) now) as [Hlt|Hge]; simpl.
  { split; [|split; [|split]]; [| done | | done].
    - split; [done|]. intros (_ & _ & Hv). apply Z.leb_le in Hv. lia.
    - intros e [= <-]. split; [by eexists | done]. }
  split; [|split; [|split]]; [| | done | done].
  - split; [|done]. intros _. split; [done|]. split; [done|]. by apply Z.leb_le.
  - intros _. split; [done|]. split.
    + rewrite get_promotion_unfold. simpl.
      by rewrite bool_decide_eq_true_2, lookup_insert_eq.
    + intros s' Hne. simpl. by rewrite lookup_insert_ne.
Qed.

(** X8.  A successful [apply_promotion(s, p)] followed by
    [remove_promotion(s)] succeeds and gives back the film as it was; a
    second [remove_promotion(s)] then raises "Screening has no
    promotion". *)
Theorem apply_then_remove_promotion (now : datetime) (s : ScreeningTime)
    (p : CinemaPromotion) (f f1 : Film) :
  Film_apply_promotion now s p f = (Ok tt, f1) →
  Film_remove_promotion s f1 = (Ok tt, f) ∧
  Film_remove_promotion s f =
    (Raise (ValueError [Lit "Screening has no promotion"]), f).
Proof.
  rewrite apply_promotion_unfold.
  destruct (bool_decide (s ∈ screenings f)) eqn:Hin; simpl; [|done].
  destruct (bool_decide (is_Some (_promotions f !! s))) eqn:Hsome; simpl; [done|].
  apply bool_decide_eq_false in Hsome.
  assert (_promotions f !! s = None) as Hnone.
  { destruct (_promotions f !! s) eqn:E; [|done]. destruct Hsome. by eexists. }
  destruct (expires_at p <? now); [done|]. intros [= <-].
  rewrite !remove_promotion_unfold. simpl. rewrite Hin. simpl.
  rewrite lookup_insert_eq.
  rewrite bool_decide_eq_true_2 by by eexists. simpl.
  rewrite bool_decide_eq_false_2 by done. simpl.
  split; [|done]. f_equal. destruct f as [t d r l pr]. unfold set_promotions. simpl in *.
  f_equal. rewrite delete_insert_eq. by apply delete_id.
Qed.

Lemma apply_then_remove_promotion_witness :
  Film_remove_promotion (mkScreeningTime 1900010800000000 1)
    (after (Film_apply_promotion 5 (mkScreeningTime 1900010800000000 1) monday
              grown_film))
  = (Ok tt, grown_film).
Proof.
  apply (apply_then_remove_promotion 5 (mkScreeningTime 1900010800000000 1) monday
           grown_film).
  vm_compute. reflexivity.
Defined.

(** X9.  A promotion left behind by [remove_screening(s)] cannot be
    reached through the promotion methods while [s] is out of the list:
    [remove_promotion(s)] and [apply_promotion(s, ...)] both raise
    "Screening not found" and change nothing.  Once [s] is added again,
    [apply_promotion(s, ...)] raises "Screening already has a promotion",
    and [remove_promotion(s)] succeeds and clears the entry. *)
Theorem stale_promotion_locked (f : Film) (s : ScreeningTime)
    (p q : CinemaPromotion) (now : datetime) :
  NoDup (screenings f) →
  s ∈ screenings f →
  _promotions f !! s = Some p →
  ∃ f1, Film_remove_screening s f = (Ok tt, f1) ∧
    Film_remove_promotion s f1 =
      (Raise (ValueError [Lit "Screening not found"]), f1) ∧
    Film_apply_promotion now s q f1 =
      (Raise (ValueError [Lit "Screening not found"]), f1) ∧
    (∀ f2, Film_add_screening s f1 = (Ok tt, f2) →
       Film_apply_promotion now s q f2 =
         (Raise (ValueError [Lit "Screening already has a promotion"]), f2) ∧
       Film_remove_promotion s f2 =
         (Ok tt, set_promotions (delete s (_promotions f)) f2)).
Proof.
  intros Hnd Hin Hp.
  exists (set_screenings (list_remove s (screenings f)) f).
  pose proof (list_remove_not_in s _ Hnd) as Hout.
  split; [|split; [|split]].
  - rewrite remove_screening_unfold. by rewrite bool_decide_eq_true_2.
  - rewrite remove_promotion_unfold. simpl. by rewrite bool_decide_eq_false_2.
  - rewrite apply_promotion_unfold. simpl. by rewrite bool_decide_eq_false_2.
  - intros f2 Hadd.
    assert (Hperm : screenings f2 ≡ₚ s :: list_remove s (screenings f)).
    { pose proof Hadd as (_ & _ & ->)%add_screening_ok. simpl.
      by rewrite sort_by_start_perm, Permutation_app_comm. }
    apply add_screening_ok in Hadd as (_ & _ & Hf2).
    assert (_promotions f2 = _promotions f) as Hpr by (by rewrite Hf2).
    assert (s ∈ screenings f2) as Hs2 by (rewrite Hperm; by left).
    rewrite apply_promotion_unfold, remove_promotion_unfold.
    rewrite !bool_decide_eq_true_2; [simpl; by rewrite Hpr | | done].
    rewrite Hpr, Hp. by eexists.
Qed.

Lemma stale_promotion_locked_witness :
  ∃ f1, Film_remove_screening test_screening grown_film = (Ok tt, f1) ∧
    is_ValueError (outcome (Film_remove_promotion test_screening f1)) = true ∧
    is_ValueError (outcome (Film_apply_promotion 5 test_screening monday f1)) = true.
Proof.
  destruct (stale_promotion_locked grown_film test_screening monday monday 5)
    as (f1 & Hrem & Hrp & Hap & _).
  - destruct (film_reachable_inv grown_film grown_film_reachable) as [_ Hnd _ _].
    exact Hnd.
  - by left.
  - reflexivity.
  - exists f1. split; [exact Hrem|]. by rewrite Hrp, Hap.
Defined.

End FilmExtra.

(** ** Further properties of [Hall] and of the halls of a [Cinema] *)

Module HallExtra.
Import FilmProps FilmExtra CinemaProps PersistenceProps.

(** X10.  [Hall(number, capacity)] succeeds exactly when the capacity is
    positive, and the hall starts full of free seats.  On such a hall
    nothing can be cancelled, whatever the count, and [reserve_seats(k)]
    succeeds exactly for [0 < k <= capacity]. *)
Theorem hall_constructor (number0 capacity0 : Z) :
  (0 < capacity0 →
     Hall_init number0 capacity0 = Ok (mkHall number0 capacity0 capacity0)) ∧
  (capacity0 ≤ 0 →
     Hall_init number0 capacity0 =
       Raise (ValidationError [Lit "Capacity must be positive"])) ∧
  (∀ h k, Hall_init number0 capacity0 = Ok h →
     is_Ok (outcome (Hall_cancel_reservation k h)) = false ∧
     (is_Ok (outcome (Hall_reserve_seats k h)) = true ↔ 0 < k ≤ capacity0)).
Proof.
  unfold Hall_init. destruct (Z.leb_spec capacity0 0) as [Hle|Hgt].
  - split; [intros; lia|]. split; [done|]. by intros h k.
  - split; [done|]. split; [intros; lia|]. intros h k [= <-].
    rewrite Hall_cancel_reservation_unfold, Hall_reserve_seats_unfold.
    unfold outcome. simpl.
    destruct (Z.leb_spec k 0); simpl; [split; [done|]; split; [done | lia]|].
    destruct (Z.gtb_spec k (capacity0 - capacity0)); [|lia].
    split; [done|].
    destruct (Z.gtb_spec k capacity0); simpl; split; try done; lia.
Qed.

(** X11.  On a hall with [0 <= available_seats <= capacity], a successful
    [reserve_seats(n)] is undone by [cancel_reservation(n)], and a
    successful [cancel_reservation(n)] is undone by [reserve_seats(n)]:
    the second call succeeds and the hall is as at the start. *)
Theorem hall_reserve_cancel_roundtrip (h : Hall) (n : Z) :
  0 ≤ available_seats h ≤ capacity h →
  (∀ h1, Hall_reserve_seats n h = (Ok tt, h1) →
     Hall_cancel_reservation n h1 = (Ok tt, h)) ∧
  (∀ h1, Hall_cancel_reservation n h = (Ok tt, h1) →
     Hall_reserve_seats n h1 = (Ok tt, h)).
Proof.
  intros Hb. split; intros h1;
    rewrite Hall_reserve_seats_unfold, Hall_cancel_reservation_unfold.
  - destruct (Z.leb_spec n 0); [done|].
    destruct (Z.gtb_spec n (available_seats h)); [done|]. intros [= <-]. simpl.
    destruct (Z.gtb_spec n (capacity h - (available_seats h - n))); [lia|].
    destruct h. unfold set_available_seats. simpl. f_equal. f_equal. lia.
  - destruct (Z.leb_spec n 0); [done|].
    destruct (Z.gtb_spec n (capacity h - available_seats h)); [done|].
    intros [= <-]. simpl.
    destruct (Z.gtb_spec n (available_seats h + n)); [lia|].
    destruct h. unfold set_available_seats. simpl. f_equal. f_equal. lia.
Qed.

Lemma hall_reserve_cancel_roundtrip_witness :
  Hall_cancel_reservation 30 (mkHall 1 100 20) = (Ok tt, mkHall 1 100 50).
Proof.
  refine (proj1 (hall_reserve_cancel_roundtrip (mkHall 1 100 50) 30 _) _ _).
  - simpl. lia.
  - reflexivity.
Defined.

(** *** The dict of halls *)

Lemma halls_by_number_snoc hs x :
  halls_by_number (hs ++ [x]) = <[number x := x]> (halls_by_number hs).
Proof. unfold halls_by_number. by rewrite foldl_app. Qed.

Lemma last_numbered_snoc n hs x :
  last_numbered n (hs ++ [x]) =
  if decide (number x = n) then Some x else last_numbered n hs.
Proof.
  unfold last_numbered. rewrite filter_app.
  destruct (decide (number x = n)) as [Hx|Hx].
  - rewrite (filter_cons_True _ x []) by done. apply last_snoc.
  - rewrite (filter_cons_False _ x []) by done. by rewrite app_nil_r.
Qed.

Lemma halls_by_number_lookup hs n :
  halls_by_number hs !! n = last_numbered n hs.
Proof.
  induction hs as [|x hs IH] using rev_ind; [done|].
  rewrite halls_by_number_snoc, last_numbered_snoc, lookup_insert.
  by destruct (decide (number x = n)).
Qed.

Lemma halls_by_number_size hs :
  NoDup (number <$> hs) → size (halls_by_number hs) = length hs.
Proof.
  induction hs as [|x hs IH] using rev_ind; [done|].
  rewrite fmap_app, NoDup_app. intros (Hnd & Hx & _).
  rewrite halls_by_number_snoc, length_app. simpl.
  rewrite map_size_insert_None, IH by done || (
    rewrite halls_by_number_lookup; unfold last_numbered;
    apply last_None, filter_none, Forall_forall; intros h Hh Heq;
    apply (Hx (number x)); [apply list_elem_of_fmap; by exists h | by left]).
  lia.
Qed.

(** X12.  [Cinema(name, halls)] files each hall under its number, a later
    hall of the list replacing an earlier one of the same number, and
    starts with an empty ledger: [hall(n)] returns the last hall of the
    list numbered [n] and raises [KeyError] when there is none,
    [available_seats] is the capacity of the hall of the screening, and
    with pairwise different numbers [halls] has the length of the list. *)
Theorem cinema_constructor (name0 : string) (halls : list Hall) :
  name (Cinema_init name0 halls) = name0 ∧
  _reservations (Cinema_init name0 halls) = ∅ ∧
  (∀ n, Cinema_hall n (Cinema_init name0 halls) =
          match last_numbered n halls with
          | Some h => Ok h
          | None => Raise (KeyError (Int n))
          end) ∧
  (∀ isoformat s h, last_numbered (hall s) halls = Some h →
     Cinema_available_seats isoformat s (Cinema_init name0 halls) = Ok (capacity h)) ∧
  (NoDup (number <$> halls) →
     length (Cinema_halls (Cinema_init name0 halls)) = length halls).
Proof.
  split; [done|]. split; [done|]. split; [|split].
  - intros n. unfold Cinema_hall. simpl. by rewrite halls_by_number_lookup.
  - intros isoformat s h Hh. unfold Cinema_available_seats, reserved_for. simpl.
    rewrite halls_by_number_lookup, Hh, lookup_empty. simpl. f_equal. lia.
  - intros Hnd. unfold Cinema_halls. simpl.
    by rewrite length_fmap, length_map_to_list, halls_by_number_size.
Qed.

(** X13.  [add_hall(h)] without [overwrite] raises [ValidationError] and
    changes nothing when a hall is registered under the number of [h];
    with [overwrite], or for a new number, it succeeds.  After a success
    [hall(h.number)] returns [h], the halls of the other numbers, the
    ledger and the name are as before. *)
Theorem add_hall_spec (h : Hall) (overwrite : bool) (c : Cinema) :
  (overwrite = false → is_Some (_halls c !! number h) →
     Cinema_add_hall h overwrite c =
       (Raise (ValidationError
                 [Lit "Hall #"; Int (number h); Lit " already exists."]), c)) ∧
  (overwrite = true ∨ _halls c !! number h = None →
     ∃ c', Cinema_add_hall h overwrite c = (Ok tt, c') ∧
           Cinema_hall (number h) c' = Ok h ∧
           (∀ n, n ≠ number h → Cinema_hall n c' = Cinema_hall n c) ∧
           _reservations c' = _reservations c ∧ name c' = name c).
Proof.
  rewrite add_hall_unfold. split.
  - intros -> Hs. simpl. by rewrite bool_decide_eq_true_2.
  - intros Hcase.
    assert (negb overwrite && bool_decide (is_Some (_halls c !! number h)) = false)
      as ->.
    { destruct Hcase as [-> | Hn]; [done|]. rewrite bool_decide_eq_false_2.
      - apply andb_false_r.
      - rewrite Hn. by intros [? ?]. }
    eexists. split; [done|]. unfold Cinema_hall. simpl.
    rewrite lookup_insert_eq. split; [done|]. split; [|done].
    intros n Hn. by rewrite lookup_insert_ne.
Qed.

(** X14.  [remove_hall(h)] looks at the number of [h] only.  It raises
    [ValidationError] and changes nothing when no hall has that number.
    Otherwise it succeeds: [hall(h.number)] then raises [KeyError], a
    second [remove_hall(h)] raises [ValidationError], the halls of the
    other numbers are as before, and so is the ledger, entries of the
    removed hall included. *)
Theorem remove_hall_spec (h : Hall) (c : Cinema) :
  (∀ h', number h' = number h → Cinema_remove_hall h' c = Cinema_remove_hall h c) ∧
  (_halls c !! number h = None →
     Cinema_remove_hall h c =
       (Raise (ValidationError
                 [Lit "Hall "; Int (number h); Lit " does not exist"]), c)) ∧
  (is_Some (_halls c !! number h) →
     ∃ c', Cinema_remove_hall h c = (Ok tt, c') ∧
           Cinema_hall (number h) c' = Raise (KeyError (Int (number h))) ∧
           is_ValidationError (outcome (Cinema_remove_hall h c')) = true ∧
           (∀ n, n ≠ number h → Cinema_hall n c' = Cinema_hall n c) ∧
           _reservations c' = _reservations c ∧ name c' = name c).
Proof.
  split; [|split].
  - intros h' Heq. rewrite !remove_hall_unfold. by rewrite Heq.
  - intros Hn. rewrite remove_hall_unfold, bool_decide_eq_false_2; [done|].
    rewrite Hn. by intros [? ?].
  - intros Hs. rewrite remove_hall_unfold, bool_decide_eq_true_2 by done.
    eexists. split; [done|]. rewrite remove_hall_unfold.
    unfold Cinema_hall, outcome. simpl. rewrite lookup_delete_eq.
    split; [done|]. split.
    { rewrite bool_decide_eq_false_2; [done|]. by intros [? ?]. }
    split; [|done]. intros n Hn. by rewrite lookup_delete_ne.
Qed.

(** X15.  Registering a hall under a number that is free and removing it
    again gives back the cinema as it was, with or without [overwrite]. *)
Theorem add_then_remove_hall (h : Hall) (overwrite : bool) (c : Cinema) :
  _halls c !! number h = None →
  ∃ c1, Cinema_add_hall h overwrite c = (Ok tt, c1) ∧
        Cinema_remove_hall h c1 = (Ok tt, c).
Proof.
  intros Hn. rewrite add_hall_unfold.
  rewrite (bool_decide_eq_false_2 (is_Some _)) by (rewrite Hn; by intros [? ?]).
  rewrite andb_false_r. eexists. split; [done|].
  rewrite remove_hall_unfold. simpl. rewrite lookup_insert_eq.
  rewrite bool_decide_eq_true_2 by by eexists.
  f_equal. destruct c as [nm hs rs]. unfold set_halls. simpl in *. f_equal.
  rewrite delete_insert_eq. by apply delete_id.
Qed.

Lemma add_then_remove_hall_witness :
  ∃ c1, Cinema_add_hall (mkHall 2 50 50) false test_cinema = (Ok tt, c1) ∧
        Cinema_remove_hall (mkHall 2 50 50) c1 = (Ok tt, test_cinema).
Proof.
  apply (add_then_remove_hall (mkHall 2 50 50) false test_cinema).
  reflexivity.
Defined.

(** X16.  The length of [halls] follows the calls: [add_hall] adds one
    when the number is new and leaves it alone otherwise (refused, or
    overwritten in place); [remove_hall] takes one off when the number is
    registered and leaves it alone otherwise. *)
Theorem hall_count (h : Hall) (overwrite : bool) (c : Cinema) :
  length (Cinema_halls (after (Cinema_add_hall h overwrite c))) =
    (if bool_decide (is_Some (_halls c !! number h))
     then length (Cinema_halls c) else S (length (Cinema_halls c))) ∧
  length (Cinema_halls c) =
    (if bool_decide (is_Some (_halls c !! number h))
     then S (length (Cinema_halls (after (Cinema_remove_hall h c))))
     else length (Cinema_halls (after (Cinema_remove_hall h c)))).
Proof.
  rewrite add_hall_unfold, remove_hall_unfold. unfold Cinema_halls, after.
  rewrite !length_fmap, !length_map_to_list.
  destruct (bool_decide (is_Some (_halls c !! number h))) eqn:Hs.
  - apply bool_decide_eq_true in Hs as [h0 Hh0].
    rewrite andb_true_r. simpl. split.
    + destruct overwrite; simpl; [|done].
      by rewrite map_size_insert_Some by by eexists.
    + rewrite map_size_delete_Some by by eexists.
      assert (size (_halls c) ≠ 0%nat); [|lia].
      intros Hz. apply map_size_empty_iff in Hz. rewrite Hz in Hh0.
      by rewrite lookup_empty in Hh0.
  - apply bool_decide_eq_false in Hs.
    assert (_halls c !! number h = None) as Hn.
    { destruct (_halls c !! number h); [destruct Hs; by eexists | done]. }
    rewrite andb_false_r. simpl.
    split; [|done]. by rewrite map_size_insert_None.
Qed.

End HallExtra.

(** ** Further properties of the reservation ledger *)

Module LedgerExtra.
Import FilmProps CinemaProps PersistenceProps LedgerInvariant WellFormed.

Section Ledger.
Context (isoformat : datetime → string).

(** X17.  [Cinema.add_screening(film, s)] first requires the hall of [s] to
    be registered: otherwise it raises [ValidationError] and leaves the
    film alone, even when the film itself would have refused [s].  With
    the hall registered it is [Film.add_screening].  After a success [s] is
    in the film and seats for it can be reserved, up to what the hall has
    left. *)
Theorem cinema_add_screening_spec (c : Cinema) (s : ScreeningTime) (f : Film) :
  (_halls c !! hall s = None →
     Cinema_add_screening c s f =
       (Raise (ValidationError
                 [Lit "Hall "; Int (hall s); Lit " does not exist"]), f)) ∧
  (is_Some (_halls c !! hall s) →
     Cinema_add_screening c s f = Film_add_screening s f) ∧
  (∀ f', Cinema_add_screening c s f = (Ok tt, f') →
     s ∈ screenings f' ∧
     ∃ h, _halls c !! hall s = Some h ∧
          ∀ n commit, 0 < n →
            n ≤ capacity h - reserved_for (key_of isoformat s) c →
            outcome (Cinema_reserve isoformat f' s n commit c) = Ok tt).
Proof.
  assert (Hnone : _halls c !! hall s = None →
    Cinema_add_screening c s f =
      (Raise (ValidationError [Lit "Hall "; Int (hall s); Lit " does not exist"]), f)).
  { intros Hn. unfold Cinema_add_screening. method.
    rewrite bool_decide_eq_false_2; [done|]. rewrite Hn. by intros [? ?]. }
  assert (Hsome : is_Some (_halls c !! hall s) →
    Cinema_add_screening c s f = Film_add_screening s f).
  { intros Hs. unfold Cinema_add_screening. unfold mbind, M_bind, bind, raise_if.
    rewrite bool_decide_eq_true_2 by done. simpl. unfold ret.
    by destruct (Film_add_screening s f) as [[[]|e] f']. }
  split; [done|]. split; [done|].
  intros f' Hadd.
  destruct (_halls c !! hall s) as [h|] eqn:Hh; [|by rewrite Hnone in Hadd].
  rewrite Hsome in Hadd by by eexists.
  assert (s ∈ screenings f') as Hin.
  { pose proof Hadd as (_ & _ & ->)%add_screening_ok. simpl.
    rewrite sort_by_start_perm. apply elem_of_app. right. by left. }
  split; [done|]. exists h. split; [done|].
  intros n commit Hn Hle.
  by rewrite (reserve_ok isoformat f' s n commit c h).
Qed.

(** X18.  A committed [reserve] that succeeds changes no hall, lowers
    [available_seats] by exactly the seats reserved for every screening
    with the same hall and start, which stays at 0 or above, and leaves
    [available_seats] of every other screening as it was. *)
Theorem reserve_available_seats (c : Cinema) (film : Film) (s : ScreeningTime)
    (seats : Z) (c' : Cinema) :
  Cinema_reserve isoformat film s seats true c = (Ok tt, c') →
  _halls c' = _halls c ∧
  (∃ v, Cinema_available_seats isoformat s c = Ok v ∧
        Cinema_available_seats isoformat s c' = Ok (v - seats) ∧
        0 ≤ v - seats) ∧
  (∀ s' v, key_of isoformat s' = key_of isoformat s →
     Cinema_available_seats isoformat s' c = Ok v →
     Cinema_available_seats isoformat s' c' = Ok (v - seats)) ∧
  (∀ s', key_of isoformat s' ≠ key_of isoformat s →
     Cinema_available_seats isoformat s' c' = Cinema_available_seats isoformat s' c).
Proof.
  intros Hres.
  destruct (reserve_cases isoformat film s seats true c)
    as [[e He]|(h & Hs & Hh & Hle & Heq)]; [congruence|].
  rewrite Heq in Hres. injection Hres as <-.
  split; [done|]. split; [|split].
  - exists (capacity h - reserved_for (key_of isoformat s) c).
    unfold Cinema_available_seats. simpl. rewrite Hh, reserved_for_set.
    split; [done|]. split; [f_equal; lia | lia].
  - intros s' v Hkey. unfold Cinema_available_seats. simpl.
    destruct (_halls c !! hall s') as [h'|]; [|done].
    rewrite Hkey, reserved_for_set. intros [= <-]. f_equal. lia.
  - intros s' Hkey. unfold Cinema_available_seats, reserved_for. simpl.
    by rewrite lookup_insert_ne.
Qed.

(** X19.  When the count on the ledger for the screening is not negative
    (as on every ledger that only holds what was reserved), a committed
    [reserve] of [n] seats that succeeds can be undone:
    [cancel_reservation] of the same [n] seats succeeds; the count on the
    ledger for every key, and [available_seats] for every screening, are
    then what they were before the reservation.  The ledger keeps an entry
    for the key (of 0 when there was none), and when the key had an entry
    the cinema is exactly as before. *)
Theorem reserve_then_cancel (c : Cinema) (film : Film) (s : ScreeningTime)
    (n : Z) (c1 : Cinema) :
  0 ≤ reserved_for (key_of isoformat s) c →
  Cinema_reserve isoformat film s n true c = (Ok tt, c1) →
  ∃ c2, Cinema_cancel_reservation isoformat film s n c1 = (Ok tt, c2) ∧
    (∀ key, reserved_for key c2 = reserved_for key c) ∧
    (∀ s', Cinema_available_seats isoformat s' c2 =
           Cinema_available_seats isoformat s' c) ∧
    _halls c2 = _halls c ∧
    _reservations c2 =
      <[key_of isoformat s := reserved_for (key_of isoformat s) c]> (_reservations c) ∧
    (is_Some (_reservations c !! key_of isoformat s) → c2 = c).
Proof.
  intros Hpos Hres.
  destruct (reserve_cases isoformat film s n true c)
    as [[e He]|(h & Hs & Hh & Hle & Heq)]; [congruence|].
  rewrite Heq in Hres. injection Hres as <-.
  assert (Hin : s ∈ screenings film).
  { revert Heq. rewrite reserve_unfold, validate_reservation_request_unfold. simpl.
    destruct (n <=? 0); [done|]. simpl.
    destruct (bool_decide (s ∈ screenings film)) eqn:Hb; [|done].
    by apply bool_decide_eq_true in Hb. }
  set (key := key_of isoformat s) in *. set (r := reserved_for key c) in *.
  rewrite (cancel_ok isoformat film s n _ h)
    by (rewrite ?reserved_for_set; first [done | lia]).
  eexists. split; [done|]. rewrite reserved_for_set. simpl.
  rewrite insert_insert_eq. replace (r + n - n) with r by lia.
  assert (Hcount : ∀ k, default 0 (<[key := r]> (_reservations c) !! k)
                        = reserved_for k c).
  { intros k. rewrite lookup_insert. by case_decide; subst. }
  split; [intros k; apply Hcount|]. split; [|split; [done|split; [done|]]].
  - intros s'. unfold Cinema_available_seats. simpl.
    destruct (_halls c !! hall s'); [|done]. unfold reserved_for at 1. simpl.
    by rewrite Hcount.
  - intros [v Hv]. destruct c as [nm hs rs]. unfold set_reservations. simpl in *.
    f_equal. apply insert_id. unfold r, reserved_for. simpl. by rewrite Hv.
Qed.

(** X20.  Two committed reservations for one screening, of [a] and then
    [b] seats, both positive, succeed exactly when one reservation of
    [a + b] seats succeeds, and lead to the same cinema. *)
Theorem reserves_accumulate (c : Cinema) (film : Film) (s : ScreeningTime)
    (a b : Z) (c2 : Cinema) :
  0 < a → 0 < b →
  (Cinema_reserve isoformat film s (a + b) true c = (Ok tt, c2) ↔
   ∃ c1, Cinema_reserve isoformat film s a true c = (Ok tt, c1) ∧
         Cinema_reserve isoformat film s b true c1 = (Ok tt, c2)).
Proof.
  intros Ha Hb.
  assert (Hin : ∀ n c0 c', Cinema_reserve isoformat film s n true c0 = (Ok tt, c') →
                           s ∈ screenings film).
  { intros n c0 c'. rewrite reserve_unfold, validate_reservation_request_unfold.
    simpl. destruct (n <=? 0); [done|]. simpl.
    destruct (bool_decide (s ∈ screenings film)) eqn:Hd; [|done].
    intros _. by apply bool_decide_eq_true in Hd. }
  set (key := key_of isoformat s). set (r := reserved_for key c).
  assert (Hjoin : ∀ rs : gmap (Z * string) Z,
            <[key := r + a + b]> (<[key := r + a]> rs) = <[key := r + (a + b)]> rs).
  { intros rs. rewrite insert_insert_eq. f_equal. lia. }
  split.
  - intros Hsum. pose proof (Hin _ _ _ Hsum) as Hs.
    destruct (reserve_cases isoformat film s (a + b) true c)
      as [[e He]|(h & _ & Hh & Hle & Heq)]; [congruence|].
    rewrite Heq in Hsum. injection Hsum as <-.
    eexists. split.
    + apply (reserve_ok isoformat film s a true c h); [done | done | done|].
      fold key r in Hle |- *. lia.
    + rewrite (reserve_ok isoformat film s b true _ h);
        [| done | done | done | fold key; rewrite reserved_for_set; fold r in Hle |- *;
                              fold key in Hle; lia].
      fold key. rewrite reserved_for_set. f_equal.
      unfold set_reservations. simpl. f_equal. apply Hjoin.
  - intros (c1 & H1 & H2). pose proof (Hin _ _ _ H1) as Hs.
    destruct (reserve_cases isoformat film s a true c)
      as [[e He]|(h & _ & Hh & Hle & Heq)]; [congruence|].
    rewrite Heq in H1. injection H1 as <-.
    destruct (reserve_cases isoformat film s b true
                (set_reservations (<[key := r + a]> (_reservations c)) c))
      as [[e He]|(h' & _ & Hh' & Hle' & Heq')]; [fold key r in H2; congruence|].
    simpl in Hh'. rewrite Hh in Hh'. injection Hh' as <-.
    fold key r in H2. rewrite Heq' in H2. injection H2 as <-.
    fold key in Hle'. rewrite reserved_for_set in Hle'.
    rewrite (reserve_ok isoformat film s (a + b) true c h);
      [| lia | done | done | fold key r in Hle |- *; lia].
    fold key r. rewrite reserved_for_set. f_equal.
    unfold set_reservations. simpl. f_equal. symmetry. apply Hjoin.
Qed.

End Ledger.

Lemma reserve_available_seats_witness :
  ∃ v, Cinema_available_seats Datetime.isoformat test_screening test_cinema = Ok v ∧
       Cinema_available_seats Datetime.isoformat test_screening
         (after (Cinema_reserve Datetime.isoformat test_film test_screening 50 true
                   test_cinema)) = Ok (v - 50) ∧
       0 ≤ v - 50.
Proof.
  refine (proj1 (proj2 (reserve_available_seats Datetime.isoformat test_cinema
    test_film test_screening 50 _ _))).
  vm_compute. reflexivity.
Defined.

Lemma reserve_then_cancel_witness :
  ∃ c2, Cinema_cancel_reservation Datetime.isoformat test_film test_screening 50
          (after (Cinema_reserve Datetime.isoformat test_film test_screening 50 true
                    test_cinema)) = (Ok tt, c2) ∧
        Cinema_available_seats Datetime.isoformat test_screening c2 = Ok 100 ∧
        _reservations c2 = {[ test_key := 0 ]}.
Proof.
  destruct (reserve_then_cancel Datetime.isoformat test_cinema test_film
              test_screening 50
              (after (Cinema_reserve Datetime.isoformat test_film test_screening 50
                        true test_cinema)))
    as (c2 & Hc & _ & Hav & _ & Hrs & _).
  - vm_compute. discriminate.
  - vm_compute. reflexivity.
  - exists c2. split; [exact Hc|]. split.
    + rewrite Hav. reflexivity.
    + rewrite Hrs. reflexivity.
Defined.

Lemma reserves_accumulate_witness :
  Cinema_reserve Datetime.isoformat test_film test_screening (30 + 20) true
    test_cinema =
    (Ok tt, mkCinema "Test Cinema" {[ 1 := test_hall ]} {[ test_key := 50 ]}) ↔
  ∃ c1, Cinema_reserve Datetime.isoformat test_film test_screening 30 true
          test_cinema = (Ok tt, c1) ∧
        Cinema_reserve Datetime.isoformat test_film test_screening 20 true c1 =
          (Ok tt, mkCinema "Test Cinema" {[ 1 := test_hall ]} {[ test_key := 50 ]}).
Proof.
  apply (reserves_accumulate Datetime.isoformat test_cinema test_film
           test_screening 30 20); lia.
Defined.

End LedgerExtra.

(** ** Further properties of seats and of snapshots over runs *)

Module RunExtra.
Import FilmProps FilmExtra CinemaProps PersistenceProps LedgerInvariant WellFormed.

(** X21.  [Cinema.reserve_seats(screening, hall, seats)], the path that
    counts on the [Hall] object, raises [ValidationError] when no hall is
    registered under the number of [hall], then when [seats <= 0], then
    when [seats] exceeds the capacity of [hall]; it raises
    [ReservationError] when [seats] fits the capacity but exceeds the
    available seats; otherwise it takes [seats] from the available seats
    of [hall].  A call that raises leaves [hall] as it was. *)
Theorem cinema_reserve_seats_spec (c : Cinema) (seats : Z) (h : Hall) :
  (_halls c !! number h = None →
     Cinema_reserve_seats c seats h =
       (Raise (ValidationError
                 [Lit "Hall "; Int (number h); Lit " does not exist"]), h)) ∧
  (is_Some (_halls c !! number h) → seats ≤ 0 →
     Cinema_reserve_seats c seats h =
       (Raise (ValidationError [Lit "Number of seats must be positive"]), h)) ∧
  (is_Some (_halls c !! number h) → 0 < seats → capacity h < seats →
     Cinema_reserve_seats c seats h =
       (Raise (ValidationError [Lit "Not enough seats available"]), h)) ∧
  (is_Some (_halls c !! number h) → 0 < seats → seats ≤ capacity h →
   available_seats h < seats →
     Cinema_reserve_seats c seats h =
       (Raise (ReservationError [Lit "Not enough seats available"]), h)) ∧
  (is_Some (_halls c !! number h) → 0 < seats → seats ≤ capacity h →
   seats ≤ available_seats h →
     Cinema_reserve_seats c seats h =
       (Ok tt, mkHall (number h) (capacity h) (available_seats h - seats))) ∧
  (∀ e, outcome (Cinema_reserve_seats c seats h) = Raise e →
     after (Cinema_reserve_seats c seats h) = h).
Proof.
  unfold Cinema_reserve_seats, Cinema_validate_reservation.
  unfold mbind, M_bind, bind, get, outcome, after. simpl.
  destruct (bool_decide (is_Some (_halls c !! number h))) eqn:Hsome; simpl.
  2:{ apply bool_decide_eq_false in Hsome.
      repeat split; try done; intros; try (by destruct Hsome). }
  apply bool_decide_eq_true in Hsome.
  assert (_halls c !! number h ≠ None) as Hne by (by destruct Hsome as [? ->]).
  destruct (Z.leb_spec seats 0); simpl.
  { repeat split; try done; intros; lia. }
  destruct (Z.gtb_spec seats (capacity h)); simpl.
  { repeat split; try done; intros; lia. }
  rewrite Hall_reserve_seats_unfold.
  destruct (Z.leb_spec seats 0); [lia|].
  destruct (Z.gtb_spec seats (available_seats h)); simpl;
    repeat split; try done; intros; lia.
Qed.



(** X23.  What [load] lets in as a hall.  A cinema that it returns with
    values of the annotated types has every hall filed under its own
    number and with a positive capacity.  On any file, the capacity of
    every hall it builds went through [capacity <= 0] with the answer
    false, which a [NaN] gives as well: a snapshot whose hall has the
    capacity [NaN] is loaded, with a capacity that is not positive. *)
Theorem loaded_halls_pass_the_test (path : string) (fs : FileSystem) :
  (∀ c, Cinema_load path fs = Loaded c →
     ∀ n h, Cinema_hall n c = Ok h → number h = n ∧ 0 < capacity h) ∧
  (∀ r, load_body path fs = Ok r →
     Forall (λ rh, le_zero (raw_capacity rh) = Ok false) (raw_halls r)) ∧
  load_body "test_cinema.json"
    (one_file "test_cinema.json" (Document nan_capacity_snapshot)) =
    Ok (mkRawCinema (JStr "Test Cinema")
          [mkRawHall (JInt 1) (JFloat nan) (JInt 0)] []) ∧
  Cinema_load "test_cinema.json"
    (one_file "test_cinema.json" (Document nan_capacity_snapshot)) = Untyped ∧
  PrimFloat.ltb 0 nan = false.
Proof.
  split; [|split; [|split; [|split]]].
  - intros c Hload n h. unfold Cinema_hall.
    destruct (_halls c !! n) as [h'|] eqn:Hh; [|done]. intros [= <-].
    by apply (load_wf path fs c Hload).
  - intros r. apply load_body_capacities.
  - vm_compute. reflexivity.
  - vm_compute. reflexivity.
  - vm_compute. reflexivity.
Qed.



Lemma reachable_mono isoformat (allowed allowed' : cinema_op → world → Prop) w0 w :
  (∀ o w', allowed o w' → allowed' o w') →
  reachable isoformat allowed w0 w → reachable isoformat allowed' w0 w.
Proof.
  intros Himp. induction 1 as [|o w Hw IH Ho]; [constructor|].
  constructor; [done | by apply Himp].
Qed.

(** X24.  From a cinema constructed over halls built by [Hall(...)], every
    sequence of the public operations, [overwrite], [remove_hall] and
    [load] of any file included, reaches a cinema that [save] and [load]
    carry over unchanged: when its integers have at most 4300 digits and
    the path can be written, saving it and loading that path returns the
    same cinema. *)
Theorem reachable_cinema_round_trips (isoformat : datetime → string)
    (name0 : string) (halls : list Hall) (fs0 : FileSystem) (w : world)
    (path timestamp : string) :
  Forall (λ h, 0 < capacity h) halls →
  reachable isoformat halls_constructed (mkWorld (Cinema_init name0 halls) fs0) w →
  ints_within (payload timestamp (the_cinema w)) = true →
  write_failures (the_files w) !! path = None →
  Cinema_load path (after (Cinema_save (the_cinema w) path timestamp (the_files w)))
    = Loaded (the_cinema w).
Proof.
  intros Hhalls Hreach Hin Hpath.
  pose proof (reachable_wf isoformat name0 halls fs0 w Hhalls Hreach) as Hwf.
  rewrite save_unfold, Hin, Hpath. unfold after. simpl.
  rewrite (load_payload_any_order _ path (the_cinema w) timestamp
             (map_to_list (_halls (the_cinema w))).*2
             (map_to_list (_reservations (the_cinema w)))).
  - by rewrite positive_capacities.
  - intros k h Hh. by apply Hwf.
  - done.
  - done.
  - by apply read_json_written.
Qed.

Lemma rough_run_reachable :
  reachable Datetime.isoformat halls_constructed
    (mkWorld (Cinema_init "Test Cinema" [test_hall])
             (one_file "test_cinema.json" (Document foreign_snapshot)))
    (run Datetime.isoformat rough_run foreign_world).
Proof.
  unfold run, rough_run. cbn [foldl].
  repeat (apply reach_step; [|exact I || (simpl; lia)]).
  apply reach_start.
Qed.

Lemma reachable_cinema_round_trips_witness :
  Cinema_load "copy.json"
    (after (Cinema_save (the_cinema (run Datetime.isoformat rough_run foreign_world))
              "copy.json" "2030-03-17T12:00:00+00:00"
              (the_files (run Datetime.isoformat rough_run foreign_world))))
  = Loaded (the_cinema (run Datetime.isoformat rough_run foreign_world)).
Proof.
  apply (reachable_cinema_round_trips Datetime.isoformat "Test Cinema" [test_hall]
           (one_file "test_cinema.json" (Document foreign_snapshot))).
  - repeat constructor.
  - exact rough_run_reachable.
  - vm_compute. reflexivity.
  - vm_compute. reflexivity.
Defined.

(** X25.  From a cinema constructed over halls built by [Hall(...)] and
    files without snapshots, under calls that never overwrite a hall and
    remove only halls that no ledger entry names, [available_seats] of a
    screening in a registered hall always lies between 0 and the capacity
    of the hall: a hall is never overbooked. *)
Theorem available_seats_bounds (isoformat : datetime → string) (name0 : string)
    (halls : list Hall) (fs0 : FileSystem) (w : world) (s : ScreeningTime)
    (h : Hall) :
  Forall (λ h, 0 < capacity h) halls →
  no_snapshots fs0 →
  reachable isoformat careful (mkWorld (Cinema_init name0 halls) fs0) w →
  _halls (the_cinema w) !! hall s = Some h →
  ∃ v, Cinema_available_seats isoformat s (the_cinema w) = Ok v ∧
       0 ≤ v ≤ capacity h.
Proof.
  intros Hhalls Hno Hreach Hh.
  assert (Hok : world_ok w).
  { apply (reachable_world_ok isoformat (mkWorld (Cinema_init name0 halls) fs0));
      [by apply fresh_world_ok|].
    eapply reachable_mono; [|exact Hreach]. by intros o w' [? _]. }
  assert (Hwf : cinema_wf (the_cinema w)).
  { apply (reachable_wf isoformat name0 halls fs0); [done|].
    eapply reachable_mono; [|exact Hreach]. by intros o w' [_ ?]. }
  destruct Hok as (_ & Hledger & _).
  destruct (Hwf _ _ Hh) as [_ Hcap].
  destruct (reserved_for_bounds (the_cinema w) (key_of isoformat s) h Hledger Hh)
    as [H0 Hle].
  unfold Cinema_available_seats. rewrite Hh. eexists. split; [done|].
  specialize (Hle Hcap). lia.
Qed.

Lemma safe_run_careful :
  reachable Datetime.isoformat careful
    (mkWorld (Cinema_init "Test Cinema" [test_hall]) no_files)
    (run Datetime.isoformat safe_run fresh_world).
Proof.
  unfold run, safe_run. cbn [foldl].
  repeat (apply reach_step; [|split; (exact I || reflexivity || (simpl; lia))]).
  apply reach_start.
Qed.

Lemma available_seats_bounds_witness :
  ∃ v, Cinema_available_seats Datetime.isoformat test_screening
         (the_cinema (run Datetime.isoformat safe_run fresh_world)) = Ok v ∧
       0 ≤ v ≤ 100.
Proof.
  refine (available_seats_bounds Datetime.isoformat "Test Cinema" [test_hall]
            no_files (run Datetime.isoformat safe_run fresh_world) test_screening
            test_hall _ _ safe_run_careful _).
  - repeat constructor.
  - intros path j. unfold no_files. simpl. by rewrite lookup_empty.
  - vm_compute. reflexivity.
Defined.

End RunExtra.

(** ** Further properties of [load] *)

Module PersistenceExtra.
Import FilmProps FilmExtra CinemaProps PersistenceProps HallExtra.

(** X26.  [load] reads a snapshot of a cinema, with integers of at most
    4300 digits, the same way whatever the order in which its halls and
    its ledger entries are listed and whatever its timestamp: such a file
    loads exactly like the one [save] writes. *)
Theorem load_ignores_order_and_timestamp (c : Cinema) (hs : list Hall)
    (es : list (Z * string * Z)) (timestamp1 timestamp2 path1 path2 : string)
    (fs1 fs2 : FileSystem) :
  halls_keyed c →
  hs ≡ₚ (map_to_list (_halls c)).*2 →
  es ≡ₚ map_to_list (_reservations c) →
  ints_within (payload timestamp2 c) = true →
  files fs1 !! path1 = Some (Document (payload_of (name c) timestamp1 hs es)) →
  files fs2 !! path2 = Some (Document (payload timestamp2 c)) →
  Cinema_load path1 fs1 = Cinema_load path2 fs2.
Proof.
  intros Hk Hhs Hes Hin H1 H2.
  assert (ints_within (payload_of (name c) timestamp1 hs es) = true) as Hin1.
  { rewrite <- Hin. unfold payload. by apply ints_within_permutation. }
  rewrite (load_payload_any_order fs1 path1 c timestamp1 hs es); try done.
  2:{ by rewrite (read_json_payload_of _ _ _ _ _ _ H1), Hin1. }
  rewrite (load_payload_any_order fs2 path2 c timestamp2
             (map_to_list (_halls c)).*2 (map_to_list (_reservations c)));
    try done.
  2:{ unfold payload in *. by rewrite (read_json_payload_of _ _ _ _ _ _ H2), Hin. }
  by rewrite (forallb_permutation _ _ _ Hhs).
Qed.

Lemma load_ignores_order_and_timestamp_witness :
  Cinema_load "a.json"
    (one_file "a.json"
       (Document (payload_of "Test Cinema" "2031-01-01T00:00:00+00:00"
                    [mkHall 2 50 50; mkHall 1 100 50]
                    [((2, "2030-03-17T20:46:40"), 5); (test_key, 50)]))) =
  Cinema_load "b.json"
    (one_file "b.json" (Document (payload "2030-03-17T12:00:00+00:00" two_halls))).
Proof.
  apply (load_ignores_order_and_timestamp two_halls
           [mkHall 2 50 50; mkHall 1 100 50]
           [((2, "2030-03-17T20:46:40"), 5); (test_key, 50)]
           "2031-01-01T00:00:00+00:00" "2030-03-17T12:00:00+00:00").
  - intros k h Hh%elem_of_map_to_list. vm_compute in Hh.
    apply elem_of_cons in Hh as [Hh|Hh]; [by injection Hh as -> ->|].
    apply elem_of_cons in Hh as [Hh|Hh]; [by injection Hh as -> ->|].
    by apply elem_of_nil in Hh.
  - vm_compute. first [reflexivity | apply Permutation_swap].
  - vm_compute. first [reflexivity | apply Permutation_swap].
  - vm_compute. reflexivity.
  - reflexivity.
  - reflexivity.
Defined.

Lemma last_assigned_snoc {K V : Type} `{EqDecision K} (k : K) (l : list (K * V)) e :
  last_assigned k (l ++ [e]) =
  if decide (e.1 = k) then Some e.2 else last_assigned k l.
Proof.
  unfold last_assigned. rewrite filter_app.
  destruct (decide (e.1 = k)) as [He|He].
  - rewrite filter_singleton_True by done. by rewrite last_snoc.
  - rewrite filter_singleton_False by done. by rewrite app_nil_r.
Qed.

Lemma foldl_assign_lookup {K V : Type} `{Countable K} (l : list (K * V))
    (m : gmap K V) k :
  foldl assign m l !! k =
  match last_assigned k l with Some v => Some v | None => m !! k end.
Proof.
  induction l as [|e l IH] using rev_ind; [done|].
  rewrite foldl_app, last_assigned_snoc. simpl. unfold assign at 1.
  rewrite lookup_insert. by destruct (decide (e.1 = k)).
Qed.

(** X27.  [load] takes a snapshot of the right shape, with integers of at
    most 4300 digits, as it comes, without comparing its entries: of
    several halls with one number the last
    listed is kept, of several ledger entries with one key the last
    listed is kept, and the ledger is filled whether or not the halls it
    names are in the snapshot. *)
Theorem load_later_entries_win (fs : FileSystem) (path name0 timestamp : string)
    (hs : list Hall) (es : list (Z * string * Z)) :
  files fs !! path = Some (Document (payload_of name0 timestamp hs es)) →
  ints_within (payload_of name0 timestamp hs es) = true →
  Forall (λ h, 0 < capacity h) hs →
  ∃ c, Cinema_load path fs = Loaded c ∧
       name c = name0 ∧
       (∀ n, _halls c !! n = last_numbered n hs) ∧
       (∀ key, _reservations c !! key = last_assigned key es).
Proof.
  intros Hfile Hfit Hpos.
  rewrite (load_payload_of fs path name0 timestamp hs es)
    by (by rewrite (read_json_payload_of _ _ _ _ _ _ Hfile), Hfit).
  assert (forallb (λ h, negb (capacity h <=? 0)) hs = true) as ->.
  { apply forallb_forall. intros h Hin%list_elem_of_In.
    rewrite Forall_forall in Hpos. apply negb_true_iff, Z.leb_gt. by apply Hpos. }
  eexists. split; [done|].
  destruct (assign_all_reservations es (Cinema_init name0 hs)) as (-> & -> & ->).
  split; [done|]. split.
  - intros n. simpl. apply halls_by_number_lookup.
  - intros key. simpl. rewrite foldl_assign_lookup, lookup_empty.
    by destruct (last_assigned key es).
Qed.

Lemma load_later_entries_win_witness :
  ∃ c, Cinema_load "test_cinema.json"
         (one_file "test_cinema.json" (Document repeated_snapshot)) = Loaded c ∧
       _halls c !! 1 = Some (mkHall 1 80 80) ∧
       _reservations c !! test_key = Some 30.
Proof.
  destruct (load_later_entries_win
              (one_file "test_cinema.json" (Document repeated_snapshot))
              "test_cinema.json" "Test Cinema" "2030-03-17T12:00:00+00:00"
              [mkHall 1 100 100; mkHall 1 80 80] [(test_key, 10); (test_key, 30)])
    as (c & Hload & _ & Hh & Hr).
  - reflexivity.
  - vm_compute. reflexivity.
  - repeat constructor.
  - exists c. split; [exact Hload|]. split.
    + rewrite Hh. reflexivity.
    + rewrite Hr. reflexivity.
Defined.

End PersistenceExtra.
